(** * Gesture-Control: the per-frame gesture decision loop

    A shallow embedding of [HandTrackingModule.py] (finger classifier and
    landmark distance), of the frame loop shared by [main.py] and
    [gui_main.py] (hold timers, mode selection, per-mode dispatch, painter
    strokes) and of the canvas compositor.

    Conventions.
    - Pixel coordinates, finger flags and colour channels are Python [int]s
      or [uint8]s: [Z], with saturation written out where OpenCV saturates.
    - Timestamps ([time.time()]) are finite floats, hence rationals: [Q].
      The code only copies, subtracts and compares them; the subtraction
      is taken exact.
    - [math.hypot] and [np.interp] are modelled over the reals [R]
      (rounding is not modelled).
    - A Python [IndexError] is [None] in the [option] monad.
    - Rendering into the displayed frame (icons, landmarks, text) has no
      effect on the decision state and is left out; the persistent canvas
      is kept as the sequence of [cv2.line] calls applied to it.
    - The frame step is the body of the loop on a received frame.  Key
      presses and the GUI's button callbacks are outside it. *)

From Stdlib Require Import ZArith QArith Lqa Reals Lra Lia Bool.
From stdpp Require Import base option list.

#[local] Open Scope Z_scope.

(** * Part I: the model *)

(** ** Python primitives *)

(** Truthiness of an [int]. *)
Definition truthy (z : Z) : bool := negb (z =? 0).

(** [l[i] = v]: Python raises [IndexError] out of range. *)
Definition set_item {A} (l : list A) (i : nat) (v : A) : option (list A) :=
  if (i <? length l)%nat then Some (<[i := v]> l) else None.

(** [==] on lists of [int]s. *)
Fixpoint ints_eqb (l k : list Z) : bool :=
  match l, k with
  | [], [] => true
  | a :: l', b :: k' => (a =? b) && ints_eqb l' k'
  | _, _ => false
  end.

(** [sum(l)]. *)
Definition sum (l : list Z) : Z := foldr Z.add 0 l.

(** [any(l)]. *)
Definition any (l : list Z) : bool := existsb truthy l.

(** [a < b] and [a >= b] on timestamps. *)
Definition Qlt_bool (a b : Q) : bool := negb (Qle_bool b a).
Definition Qge_bool (a b : Q) : bool := Qle_bool b a.

(** [x < v < x + size], a chained comparison. *)
Definition between (x v size : Z) : bool := (x <? v) && (v <? x + size).

(** ** Landmarks ([HandTrackingModule.py]) *)

(** One entry [[id, cx, cy]] of [handDetector.lmList]. *)
Record landmark : Type := Landmark { lm_id : Z; lm_cx : Z; lm_cy : Z }.

(** [lm[1:]], the pixel position. *)
Definition position (lm : landmark) : Z * Z := (lm_cx lm, lm_cy lm).

(** The flag the classifier stores for a finger. *)
Definition flag (b : bool) : Z := if b then 1 else 0.

Module handDetector.

Definition tipIds : list nat := [4; 8; 12; 16; 20]%nat.

(** The body of [for i in range(1, 5)] in [fingersUp], over the remaining
    values of [i]. *)
Fixpoint fingers_loop (range : list nat) (lmList : list landmark)
    (fingers : list Z) : option (list Z) :=
  match range with
  | [] => Some fingers
  | i :: range' =>
      tip ← tipIds !! i;
      a ← lmList !! tip;
      b ← lmList !! (tip - 2)%nat;
      fingers' ← (if lm_cy a <? lm_cy b then set_item fingers i 1
                  else Some fingers);
      fingers_loop range' lmList fingers'
  end.

Definition fingersUp (lmList : list landmark) : option (list Z) :=
  let fingers := replicate 5 0 in
  if (length lmList <? 21)%nat then Some fingers
  else
    tip ← tipIds !! 0%nat;
    a ← lmList !! tip;
    b ← lmList !! (tip - 1)%nat;
    fingers' ← (if lm_cx a >? lm_cx b then set_item fingers 0 1
                else Some fingers);
    fingers_loop (seq 1 4) lmList fingers'.

(** [math.hypot] over the reals. *)
Definition hypot (dx dy : Z) : R := sqrt (IZR (dx * dx + dy * dy)).

(** [findDistance(p1, p2)], without the drawing on [img]: the length and
    the list [[x1, y1, x2, y2, cx, cy]].  The requested landmarks are
    landmark identifiers, which are natural numbers. *)
Definition findDistance (p1 p2 : nat) (lmList : list landmark)
    : option (R * list Z) :=
  if (length lmList <=? Nat.max p1 p2)%nat then
    Some (0%R, [0; 0; 0; 0; 0; 0])
  else
    a ← lmList !! p1;
    b ← lmList !! p2;
    let '(x1, y1) := position a in
    let '(x2, y2) := position b in
    let cx := (x1 + x2) `div` 2 in
    let cy := (y1 + y2) `div` 2 in
    Some (hypot (x2 - x1) (y2 - y1), [x1; y1; x2; y2; cx; cy]).

End handDetector.

(** ** NumPy: [np.interp] on a two-point table

    [np.interp(x, [x0, x1], [f0, f1])] for increasing [x0 < x1], in the
    order NumPy decides it: right of the table, left of the table, on the
    last point, on the first point, in between. *)
Definition np_interp (x : R) (xp fp : R * R) : R :=
  let '(x0, x1) := xp in
  let '(f0, f1) := fp in
  if Rlt_dec x1 x then f1
  else if Rlt_dec x x0 then f0
  else if Req_dec_T x x1 then f1
  else if Req_dec_T x0 x then f0
  else ((f1 - f0) / (x1 - x0) * (x - x0) + f0)%R.

(** ** Constants and configuration of the two drivers *)

(** [main.py] is the console driver, [gui_main.py] the PyQt one. *)
Inductive driver : Type := Console | Gui.

Definition CAM_WIDTH : Z := 640.
Definition CAM_HEIGHT : Z := 480.
Definition SCROLL_AMOUNT : Z := 40.
Definition MODE_SELECT_HOLD : Q := 2.
Definition SCREENSHOT_HOLD : Q := 2.
Definition HOVER_HOLD : Q := 1.

Definition ICON_SIZE (d : driver) : Z :=
  match d with Console => 100 | Gui => 80 end.

Definition mode_icon_positions (d : driver) : list (Z * Z) :=
  match d with
  | Console => [(40, 20); (180, 20); (320, 20); (460, 20)]
  | Gui => [(40, 20); (140, 20); (240, 20); (340, 20)]
  end.

Inductive mode : Type := mouse | volume | painter | scroll.

(** [["mouse", "volume", "painter", "scroll"]], indexed by icon. *)
Definition mode_names : list mode := [mouse; volume; painter; scroll].

Inductive painter_option : Type := red | green | blue | thick | thin | eraser.

Definition painter_icon_positions (d : driver) : list (Z * Z) :=
  match d with
  | Console => [(10, 20); (115, 20); (220, 20); (325, 20); (430, 20); (535, 20)]
  | Gui => [(10, 20); (110, 20); (210, 20); (310, 20); (410, 20); (510, 20)]
  end.

(** [painter_options.items()], in insertion order, without the bitmaps. *)
Definition painter_options (d : driver) : list (painter_option * (Z * Z)) :=
  zip [red; green; blue; thick; thin; eraser] (painter_icon_positions d).

(** What the drivers read from their environment at start-up:
    [pyautogui.size()], whether an audio endpoint was found
    ([volume is not None]) and its range. *)
Record environment : Type := Environment {
  screen_width : Z;
  screen_height : Z;
  volume_available : bool;
  vol_min : R;
  vol_max : R
}.

(** ** State, frames and actions *)

(** A BGR colour. *)
Definition colour : Type := Z * Z * Z.

(** One call [cv2.line(img_canvas, pt1, pt2, color, thickness)]. *)
Record line : Type := Line {
  pt1 : Z * Z;
  pt2 : Z * Z;
  line_color : colour;
  line_thickness : Z
}.

(** The module-level variables of [main.py], the attributes set by
    [GestureGui._init_state].  [img_canvas] lists the lines drawn on the
    white canvas, latest first. *)
Record state : Type := State {
  select_mode_start : Q;
  screenshot_start : Q;
  hover_start : Q;
  hovered_icon : Z;
  current_mode : mode;
  selecting_mode : bool;
  click_armed : bool;
  xp : Z;
  yp : Z;
  brush_thickness : Z;
  draw_color : colour;
  draw_color_name : painter_option;
  last_color : colour;
  img_canvas : list line
}.

Definition initial_state : state :=
  {| select_mode_start := 0; screenshot_start := 0; hover_start := 0;
     hovered_icon := -1; current_mode := mouse; selecting_mode := false;
     click_armed := false; xp := 0; yp := 0; brush_thickness := 10;
     draw_color := (0, 0, 255); draw_color_name := red;
     last_color := (0, 0, 255); img_canvas := [] |}.

(** What one iteration reads: the landmark list of [findPosition] (empty
    when no hand is detected), the frame's timestamp ([cTime], [now]) and
    the later clock reading taken inside [check_hover]. *)
Record frame : Type := Frame {
  lmList : list landmark;
  cTime : Q;
  hover_time : Q
}.

Inductive button : Type := left | right.

(** Calls into the operating system. *)
Inductive action : Type :=
| screenshot
| moveTo (sx sy : R)
| click (b : button)
| SetMasterVolumeLevel (vol : R)
| scroll_by (amount : Z).

(** *** Assignments to single state variables *)

Definition set_select_mode_start (v : Q) (st : state) : state :=
  State v (screenshot_start st) (hover_start st) (hovered_icon st)
    (current_mode st) (selecting_mode st) (click_armed st) (xp st) (yp st)
    (brush_thickness st) (draw_color st) (draw_color_name st)
    (last_color st) (img_canvas st).

Definition set_screenshot_start (v : Q) (st : state) : state :=
  State (select_mode_start st) v (hover_start st) (hovered_icon st)
    (current_mode st) (selecting_mode st) (click_armed st) (xp st) (yp st)
    (brush_thickness st) (draw_color st) (draw_color_name st)
    (last_color st) (img_canvas st).

Definition set_hover_start (v : Q) (st : state) : state :=
  State (select_mode_start st) (screenshot_start st) v (hovered_icon st)
    (current_mode st) (selecting_mode st) (click_armed st) (xp st) (yp st)
    (brush_thickness st) (draw_color st) (draw_color_name st)
    (last_color st) (img_canvas st).

Definition set_hovered_icon (v : Z) (st : state) : state :=
  State (select_mode_start st) (screenshot_start st) (hover_start st) v
    (current_mode st) (selecting_mode st) (click_armed st) (xp st) (yp st)
    (brush_thickness st) (draw_color st) (draw_color_name st)
    (last_color st) (img_canvas st).

Definition set_current_mode (v : mode) (st : state) : state :=
  State (select_mode_start st) (screenshot_start st) (hover_start st)
    (hovered_icon st) v (selecting_mode st) (click_armed st) (xp st) (yp st)
    (brush_thickness st) (draw_color st) (draw_color_name st)
    (last_color st) (img_canvas st).

Definition set_selecting_mode (v : bool) (st : state) : state :=
  State (select_mode_start st) (screenshot_start st) (hover_start st)
    (hovered_icon st) (current_mode st) v (click_armed st) (xp st) (yp st)
    (brush_thickness st) (draw_color st) (draw_color_name st)
    (last_color st) (img_canvas st).

Definition set_click_armed (v : bool) (st : state) : state :=
  State (select_mode_start st) (screenshot_start st) (hover_start st)
    (hovered_icon st) (current_mode st) (selecting_mode st) v (xp st) (yp st)
    (brush_thickness st) (draw_color st) (draw_color_name st)
    (last_color st) (img_canvas st).

(** [xp, yp = v]. *)
Definition set_pen (v : Z * Z) (st : state) : state :=
  State (select_mode_start st) (screenshot_start st) (hover_start st)
    (hovered_icon st) (current_mode st) (selecting_mode st) (click_armed st)
    v.1 v.2 (brush_thickness st) (draw_color st) (draw_color_name st)
    (last_color st) (img_canvas st).

Definition set_brush_thickness (v : Z) (st : state) : state :=
  State (select_mode_start st) (screenshot_start st) (hover_start st)
    (hovered_icon st) (current_mode st) (selecting_mode st) (click_armed st)
    (xp st) (yp st) v (draw_color st) (draw_color_name st) (last_color st)
    (img_canvas st).

Definition set_draw_color (v : colour) (st : state) : state :=
  State (select_mode_start st) (screenshot_start st) (hover_start st)
    (hovered_icon st) (current_mode st) (selecting_mode st) (click_armed st)
    (xp st) (yp st) (brush_thickness st) v (draw_color_name st)
    (last_color st) (img_canvas st).

Definition set_draw_color_name (v : painter_option) (st : state) : state :=
  State (select_mode_start st) (screenshot_start st) (hover_start st)
    (hovered_icon st) (current_mode st) (selecting_mode st) (click_armed st)
    (xp st) (yp st) (brush_thickness st) (draw_color st) v (last_color st)
    (img_canvas st).

Definition set_last_color (v : colour) (st : state) : state :=
  State (select_mode_start st) (screenshot_start st) (hover_start st)
    (hovered_icon st) (current_mode st) (selecting_mode st) (click_armed st)
    (xp st) (yp st) (brush_thickness st) (draw_color st)
    (draw_color_name st) v (img_canvas st).

(** [cv2.line(img_canvas, ...)]: the canvas is mutated in place. *)
Definition cv2_line (l : line) (st : state) : state :=
  State (select_mode_start st) (screenshot_start st) (hover_start st)
    (hovered_icon st) (current_mode st) (selecting_mode st) (click_armed st)
    (xp st) (yp st) (brush_thickness st) (draw_color st)
    (draw_color_name st) (last_color st) (l :: img_canvas st).

(** ** The frame loop ([main.py] lines 143-258, [GestureGui.update_frame]) *)

(** Screenshot: fist for [SCREENSHOT_HOLD] seconds. *)
Definition screenshot_trigger (fingers : list Z) (now : Q) (st : state)
    : state * list action :=
  if ints_eqb fingers [0; 0; 0; 0; 0] then
    if Qeq_bool (screenshot_start st) 0 then (set_screenshot_start now st, [])
    else if Qge_bool (now - screenshot_start st) SCREENSHOT_HOLD then
      (set_screenshot_start 0 st, [screenshot])
    else (st, [])
  else (set_screenshot_start 0 st, []).

(** Mode selection: five fingers for [MODE_SELECT_HOLD] seconds. *)
Definition mode_select_entry (fingers : list Z) (now : Q) (st : state)
    : state :=
  if sum fingers =? 5 then
    if Qeq_bool (select_mode_start st) 0 then set_select_mode_start now st
    else if Qlt_bool MODE_SELECT_HOLD (now - select_mode_start st) then
      set_selecting_mode true st
    else st
  else set_select_mode_start 0 st.

(** The commit of a hovered icon.  [main.check_hover] sets the mode and
    leaves mode selection; [GestureGui._check_hover] does the same through
    [set_mode] and also clears [hovered_icon]. *)
Definition hover_commit (d : driver) (m : mode) (st : state) : state :=
  let st' := set_selecting_mode false (set_current_mode m st) in
  match d with
  | Console => st'
  | Gui => set_hovered_icon (-1) st'
  end.

(** The [for i, (x, y) in enumerate(mode_icon_positions)] loop of
    [check_hover] from icon [i] on; [now] is its reading of [time.time()]. *)
Fixpoint hover_loop (d : driver) (i : nat) (positions : list (Z * Z))
    (index_pos : Z * Z) (now : Q) (st : state) : option state :=
  match positions with
  | [] => Some (set_hovered_icon (-1) st)
  | (x, y) :: positions' =>
      if between x index_pos.1 (ICON_SIZE d)
         && between y index_pos.2 (ICON_SIZE d) then
        if hovered_icon st =? Z.of_nat i then
          if Qlt_bool HOVER_HOLD (now - hover_start st) then
            m ← mode_names !! i;
            Some (hover_commit d m st)
          else Some st
        else Some (set_hover_start now (set_hovered_icon (Z.of_nat i) st))
      else hover_loop d (S i) positions' index_pos now st
  end.

Definition check_hover (d : driver) (index_pos : Z * Z) (now : Q)
    (st : state) : option state :=
  hover_loop d 0 (mode_icon_positions d) index_pos now st.

(** Click gestures of the mouse branch; [f1], [f2] are [fingers[1]] and
    [fingers[2]]. *)
Definition click_gestures (f1 f2 : Z) (st : state) : state * list action :=
  if truthy f1 && truthy f2 then (set_click_armed true st, [])
  else if click_armed st then
    if negb (truthy f1) && truthy f2 then
      (set_click_armed false st, [click left])
    else if negb (truthy f1) && negb (truthy f2) then
      (set_click_armed false st, [click right])
    else (st, [])
  else (st, []).

(** The mouse branch: cursor move, then click gestures.  Landmark 12 is
    read by [main.py] only; the branch is entered with more than 12
    landmarks in either driver. *)
Definition mouse_branch (env : environment) (lm : list landmark)
    (fingers : list Z) (st : state) : option (state * list action) :=
  index ← lm !! 8%nat;
  _ ← lm !! 12%nat;
  f1 ← fingers !! 1%nat;
  f2 ← fingers !! 2%nat;
  let '(ix, iy) := position index in
  let move :=
    if truthy f1 && negb (any (drop 2 fingers)) then
      [moveTo
         (np_interp (IZR ix) (0%R, IZR CAM_WIDTH) (0%R, IZR (screen_width env)))
         (np_interp (IZR iy) (0%R, IZR CAM_HEIGHT)
            (0%R, IZR (screen_height env)))]
    else [] in
  let '(st', clicks) := click_gestures f1 f2 st in
  Some (st', move ++ clicks).

(** The volume branch. *)
Definition volume_branch (env : environment) (lm : list landmark)
    : option (list action) :=
  '(length, _) ← handDetector.findDistance 4 8 lm;
  Some [SetMasterVolumeLevel
          (np_interp length (20%R, 200%R) (vol_min env, vol_max env))].

(** The body run for a painter icon under the fingertip. *)
Definition select_tool (name : painter_option) (st : state) : state :=
  let st1 :=
    match name with
    | thick => set_draw_color_name thick (set_brush_thickness 20 st)
    | thin => set_draw_color_name thin (set_brush_thickness 5 st)
    | eraser => set_draw_color_name eraser (set_draw_color (255, 255, 255) st)
    | _ =>
        let c := match name with
                 | red => (0, 0, 255)
                 | green => (0, 255, 0)
                 | _ => (255, 0, 0)
                 end in
        set_last_color c (set_draw_color_name name (set_draw_color c st))
    end in
  match draw_color_name st1 with
  | eraser => st1
  | _ => set_draw_color (last_color st1) st1
  end.

(** [for name, ((x, y), _) in painter_options.items()]. *)
Definition select_tool_at (d : driver) (c : Z * Z) (st : state) : state :=
  foldl
    (λ st' '(name, (x, y)),
       if between x c.1 (ICON_SIZE d) && between y c.2 (ICON_SIZE d)
       then select_tool name st' else st')
    st (painter_options d).

(** Drawing while index and middle are up; the pen is lifted otherwise.
    [(0, 0)] in [xp, yp] stands for the lifted pen. *)
Definition stroke (f1 f2 : Z) (c : Z * Z) (st : state) : state :=
  if truthy f1 && truthy f2 then
    let st1 := if (xp st =? 0) && (yp st =? 0) then set_pen c st else st in
    let st2 :=
      cv2_line (Line (xp st1, yp st1) c (draw_color st1) (brush_thickness st1))
        st1 in
    set_pen c st2
  else set_pen (0, 0) st.

(** The painter branch. *)
Definition painter_branch (d : driver) (lm : list landmark)
    (fingers : list Z) (st : state) : option state :=
  if (8 <? length lm)%nat then
    index ← lm !! 8%nat;
    f1 ← fingers !! 1%nat;
    f2 ← fingers !! 2%nat;
    let c := position index in
    let st1 :=
      if truthy f1 && negb (any (drop 2 fingers)) then select_tool_at d c st
      else st in
    Some (stroke f1 f2 c st1)
  else Some st.

(** The scroll branch. *)
Definition scroll_branch (fingers : list Z) : option (list action) :=
  f1 ← fingers !! 1%nat;
  f2 ← fingers !! 2%nat;
  f3 ← fingers !! 3%nat;
  if truthy f1 && truthy f2 && negb (truthy f3) then
    Some [scroll_by SCROLL_AMOUNT]
  else if truthy f1 && truthy f2 && truthy f3 then
    Some [scroll_by (- SCROLL_AMOUNT)]
  else Some [].

(** The [if selecting_mode: ... elif current_mode == ...] chain. *)
Definition dispatch (d : driver) (env : environment) (f : frame)
    (fingers : list Z) (st : state) : option (state * list action) :=
  let lm := lmList f in
  if selecting_mode st then
    if (8 <? length lm)%nat then
      index ← lm !! 8%nat;
      st' ← check_hover d (position index) (hover_time f) st;
      Some (st', [])
    else Some (st, [])
  else
    match current_mode st with
    | mouse =>
        if (12 <? length lm)%nat then mouse_branch env lm fingers st
        else Some (st, [])
    | volume =>
        if (8 <? length lm)%nat && volume_available env then
          acts ← volume_branch env lm;
          Some (st, acts)
        else Some (st, [])
    | painter =>
        st' ← painter_branch d lm fingers st;
        Some (st', [])
    | scroll =>
        acts ← scroll_branch fingers;
        Some (st, acts)
    end.

(** [fingers = detector.fingersUp() if lmList else [0, 0, 0, 0, 0]]. *)
Definition fingers_of (lm : list landmark) : option (list Z) :=
  match lm with
  | [] => Some [0; 0; 0; 0; 0]
  | _ => handDetector.fingersUp lm
  end.

(** The statement after the gesture block: only [gui_main.py] clears the
    hovered icon whenever mode selection is off. *)
Definition end_of_frame (d : driver) (st : state) : state :=
  match d with
  | Console => st
  | Gui => if selecting_mode st then st else set_hovered_icon (-1) st
  end.

(** One iteration of the loop on a received frame. *)
Definition process_frame (d : driver) (env : environment) (st : state)
    (f : frame) : option (state * list action) :=
  fingers ← fingers_of (lmList f);
  match lmList f with
  | [] => Some (end_of_frame d st, [])
  | _ =>
      let '(st1, shots) := screenshot_trigger fingers (cTime f) st in
      let st2 := mode_select_entry fingers (cTime f) st1 in
      '(st3, acts) ← dispatch d env f fingers st2;
      Some (end_of_frame d st3, shots ++ acts)
  end.

(** The loop over a sequence of frames: the final state and the actions of
    each frame. *)
Fixpoint run (d : driver) (env : environment) (st : state)
    (frames : list frame) : option (state * list (list action)) :=
  match frames with
  | [] => Some (st, [])
  | f :: frames' =>
      '(st', acts) ← process_frame d env st f;
      '(st'', rest) ← run d env st' frames';
      Some (st'', acts :: rest)
  end.

(** ** The compositor ([overlay_canvas], [overlay_canvas_on_frame])

    Images are rows of BGR pixels with [uint8] channels; single-channel
    images are rows of [uint8] values.  An OpenCV call on two images of
    different shapes raises an error. *)

Abbreviation image := (list (list colour)).
Abbreviation gray_image := (list (list Z)).

(** Element-wise combination of two arrays of one shape. *)
Fixpoint zip_same {A B C} (f : A → B → option C) (l : list A) (k : list B)
    : option (list C) :=
  match l, k with
  | [], [] => Some []
  | a :: l', b :: k' =>
      c ← f a b;
      rest ← zip_same f l' k';
      Some (c :: rest)
  | _, _ => None
  end.

(** An element-wise call on two arrays.  Arrays of one shape with at least
    one pixel are what the drivers pass; on other shapes the model does not
    follow OpenCV, which broadcasts some mismatches and rejects empty
    arrays. *)
Definition pixelwise (f : colour → colour → colour) (a b : image)
    : option image :=
  zip_same (zip_same (λ p q, Some (f p q))) a b.

Definition channelwise (f : Z → Z → Z) (p q : colour) : colour :=
  let '(pb, pg, pr) := p in
  let '(qb, qg, qr) := q in
  (f pb qb, f pg qg, f pr qr).

(** [cv2.cvtColor(_, cv2.COLOR_BGR2GRAY)] on [uint8]: OpenCV's 15-bit
    fixed-point BT.601 luma, rounded. *)
Definition gray_of (p : colour) : Z :=
  let '(b, g, r) := p in
  Z.shiftr (b * 3735 + g * 19235 + r * 9798 + Z.shiftl 1 14) 15.

Definition cvtColor_BGR2GRAY (img : image) : gray_image :=
  fmap (M := list) gray_of <$> img.

(** [cv2.threshold(_, thresh, maxval, cv2.THRESH_BINARY_INV)]. *)
Definition threshold_BINARY_INV (src : gray_image) (thresh maxval : Z)
    : gray_image :=
  fmap (M := list) (λ v, if thresh <? v then 0 else maxval) <$> src.

Definition cvtColor_GRAY2BGR (src : gray_image) : image :=
  fmap (M := list) (λ v, (v, v, v)) <$> src.

(** [255 - m] on a [uint8] array. *)
Definition rsub_255 (m : image) : image :=
  fmap (M := list) (λ '(b, g, r), ((255 - b) `mod` 256, (255 - g) `mod` 256,
                                  (255 - r) `mod` 256)) <$> m.

Definition bitwise_and : image → image → option image :=
  pixelwise (channelwise Z.land).

(** [cv2.add] saturates at 255. *)
Definition add : image → image → option image :=
  pixelwise (channelwise (λ a b, Z.min 255 (a + b))).

Definition overlay_canvas (img canvas : image) : option image :=
  let mask := cvtColor_BGR2GRAY canvas in
  let mask_inv := threshold_BINARY_INV mask 250 255 in
  let mask_inv := cvtColor_GRAY2BGR mask_inv in
  img' ← bitwise_and img (rsub_255 mask_inv);
  strokes ← bitwise_and canvas mask_inv;
  add img' strokes.

(** [np.ones((h, w, 3), np.uint8) * 255]. *)
Definition white_canvas (h w : nat) : image :=
  replicate h (replicate w (255, 255, 255)).

(** Well-formed images: [h] rows of [w] pixels, every channel a [uint8]. *)
Definition uint8 (v : Z) : Prop := 0 ≤ v < 256.

Definition uint8_pixel (p : colour) : Prop :=
  uint8 p.1.1 ∧ uint8 p.1.2 ∧ uint8 p.2.

Definition has_shape (h w : nat) (img : image) : Prop :=
  length img = h ∧ Forall (λ row, length row = w) img.

Definition uint8_image (img : image) : Prop := Forall (Forall uint8_pixel) img.

(** ** Observations on frames and actions *)

(** The buttons clicked by a frame's actions, in order. *)
Definition clicks (acts : list action) : list button :=
  omap (λ a, match a with click b => Some b | _ => None end) acts.

(** The number of screenshots among a frame's actions. *)
Definition screenshots (acts : list action) : nat :=
  length (omap (λ a, match a with screenshot => Some a | _ => None end) acts).

(** The volume levels set by a frame's actions. *)
Definition volume_levels (acts : list action) : list R :=
  omap (λ a, match a with SetMasterVolumeLevel v => Some v | _ => None end)
    acts.

(** [selecting_mode] as the dispatch of frame [f] reads it: after the
    five-finger hold check of a frame with a hand, unchanged without one. *)
Definition mode_selecting (st : state) (f : frame) : bool :=
  match lmList f, fingers_of (lmList f) with
  | _ :: _, Some fingers =>
      selecting_mode (mode_select_entry fingers (cTime f) st)
  | _, _ => selecting_mode st
  end.

(** A hand of 21 landmarks showing the signature [up]: all landmarks on
    one spot [(x, y)], each raised finger's tip moved (thumb to the right,
    the others upwards). *)
Definition hand (x y : Z) (up : list bool) : list landmark :=
  imap
    (λ id _,
       let raised := λ k, default false (up !! k) in
       let dx := if (id =? 4)%nat && raised 0%nat then 10 else 0 in
       let finger := (id `div` 4 - 1)%nat in
       let dy :=
         if (4 <? id)%nat && (id `mod` 4 =? 0)%nat && raised finger
         then -10 else 0 in
       Landmark (Z.of_nat id) (x + dx) (y + dy))
    (replicate 21 ()).

(** A finger flag is 0 or 1. *)
Definition is_flag (z : Z) : Prop := z = 0 ∨ z = 1.

(** The two finger-signature hold timers are as they were. *)
Definition same_timers (st st' : state) : Prop :=
  screenshot_start st' = screenshot_start st ∧
  select_mode_start st' = select_mode_start st.

(** A frame showing a hand with a closed fist. *)
Definition fist_frame (f : frame) : Prop :=
  lmList f ≠ [] ∧ fingers_of (lmList f) = Some [0; 0; 0; 0; 0].

(** ** Sample inputs *)

Definition sample_env : environment :=
  {| screen_width := 1920; screen_height := 1080; volume_available := false;
     vol_min := 0%R; vol_max := 100%R |}.

Definition audio_env : environment :=
  {| screen_width := 1920; screen_height := 1080; volume_available := true;
     vol_min := (-65)%R; vol_max := 0%R |}.

(** A hand at [(x, y)] with signature [up], seen at time [t]. *)
Definition shows (x y : Z) (up : list bool) (t : Q) : frame :=
  Frame (hand x y up) t t.

Definition no_hand (t : Q) : frame := Frame [] t t.

Definition fist : list bool := [false; false; false; false; false].
Definition five : list bool := [true; true; true; true; true].
Definition index_only : list bool := [false; true; false; false; false].
Definition middle_only : list bool := [false; false; true; false; false].
Definition index_middle : list bool := [false; true; true; false; false].

(** Painter mode with the pen lifted and a clean canvas. *)
Definition painter_lifted : state := set_current_mode painter initial_state.

(** Mode selection under way: the volume icon (icon 1) is tracked since
    second 25/2. *)
Definition hovering_volume : state :=
  set_hover_start (25 / 2)
    (set_hovered_icon 1 (set_selecting_mode true initial_state)).

(** The first icon, from number [i] on, whose hit-region holds the
    fingertip. *)
Fixpoint icon_from (d : driver) (i : nat) (positions : list (Z * Z))
    (index_pos : Z * Z) : option nat :=
  match positions with
  | [] => None
  | (x, y) :: positions' =>
      if between x index_pos.1 (ICON_SIZE d)
         && between y index_pos.2 (ICON_SIZE d)
      then Some i
      else icon_from d (S i) positions' index_pos
  end.

Definition icon_at (d : driver) (index_pos : Z * Z) : option nat :=
  icon_from d 0 (mode_icon_positions d) index_pos.

(** ** Landmark extraction ([handDetector.findPosition]) *)

(** A landmark as the detector reports it: [lm.x], [lm.y], normalised to
    the frame.  MediaPipe stores them as 32-bit floats, so the products
    with the frame's width and height are exact in Python's floats. *)
Record normalized : Type := Normalized { nx : Q; ny : Q }.

(** [int(q)]: truncation towards zero. *)
Definition int_of (q : Q) : Z := Qnum q ÷ Z.pos (Qden q).

(** [findPosition(img, handNo)] on a frame of [w] by [h] pixels, without
    the drawing: [multi_hand_landmarks] is [None] or a list of hands, and
    the [IndexError] of a missing hand is swallowed. *)
Definition findPosition (multi_hand_landmarks : option (list (list normalized)))
    (handNo : nat) (w h : Z) : list landmark :=
  match multi_hand_landmarks with
  | Some ((_ :: _) as hands) =>
      match hands !! handNo with
      | Some myHand =>
          imap
            (λ id lm,
               Landmark (Z.of_nat id) (int_of (nx lm * inject_Z w))
                 (int_of (ny lm * inject_Z h)))
            myHand
      | None => []
      end
  | _ => []
  end.

(** ** The GUI's callbacks ([gui_main.py])

    Besides the timer that runs [update_frame], the window has buttons
    that write the same attributes.  The widgets themselves (checked
    buttons, labels, the log box) are left out. *)

(** [set_mode(mode, user=True)]. *)
Definition set_mode (m : mode) (st : state) : state := set_current_mode m st.

(** [on_painter_option(key)]. *)
Definition on_painter_option (key : painter_option) (st : state) : state :=
  match key with
  | thick => set_draw_color_name thick (set_brush_thickness 20 st)
  | thin => set_draw_color_name thin (set_brush_thickness 5 st)
  | eraser => set_draw_color_name eraser (set_draw_color (255, 255, 255) st)
  | _ =>
      let color := match key with
                   | red => (0, 0, 255)
                   | green => (0, 255, 0)
                   | _ => (255, 0, 0)
                   end in
      set_draw_color_name key (set_last_color color (set_draw_color color st))
  end.

(** [clear_canvas()]: a fresh white canvas. *)
Definition clear_canvas (st : state) : state :=
  State (select_mode_start st) (screenshot_start st) (hover_start st)
    (hovered_icon st) (current_mode st) (selecting_mode st) (click_armed st)
    (xp st) (yp st) (brush_thickness st) (draw_color st)
    (draw_color_name st) (last_color st) [].

(** What the Qt event loop delivers to the window. *)
Inductive gui_event : Type :=
| timer_fired (f : frame)
| mode_button (m : mode)
| painter_button (key : painter_option)
| clear_canvas_button.

Definition gui_handle (env : environment) (st : state) (ev : gui_event)
    : option (state * list action) :=
  match ev with
  | timer_fired f => process_frame Gui env st f
  | mode_button m => Some (set_mode m st, [])
  | painter_button key => Some (on_painter_option key st, [])
  | clear_canvas_button => Some (clear_canvas st, [])
  end.

Fixpoint gui_run (env : environment) (st : state) (events : list gui_event)
    : option (state * list (list action)) :=
  match events with
  | [] => Some (st, [])
  | ev :: events' =>
      '(st', acts) ← gui_handle env st ev;
      '(st'', rest) ← gui_run env st' events';
      Some (st'', acts :: rest)
  end.

(** ** Further observations *)

(** The pointer targets of a frame's actions. *)
Definition moves (acts : list action) : list (R * R) :=
  omap (λ a, match a with moveTo sx sy => Some (sx, sy) | _ => None end) acts.

(** The scroll amounts of a frame's actions. *)
Definition scrolls (acts : list action) : list Z :=
  omap (λ a, match a with scroll_by n => Some n | _ => None end) acts.

(** The actions a mode's branch can emit. *)
Definition belongs (m : mode) (a : action) : Prop :=
  match m, a with
  | mouse, moveTo _ _ | mouse, click _ => True
  | volume, SetMasterVolumeLevel _ => True
  | scroll, scroll_by _ => True
  | _, _ => False
  end.

(** Two images of one shape. *)
Definition same_shape (a b : image) : Prop :=
  Forall2 (λ r s : list colour, length r = length s) a b.

(** The inverted mask at a canvas pixel, and what the three OpenCV calls
    of [overlay_canvas] compute there. *)
Definition mask_inv_at (c : colour) : Z := if 250 <? gray_of c then 0 else 255.

Definition overlay_pixel (p c : colour) : colour :=
  let v := mask_inv_at c in
  let w := (255 - v) `mod` 256 in
  channelwise (λ a b, Z.min 255 (a + b))
    (channelwise Z.land p (w, w, w)) (channelwise Z.land c (v, v, v)).

(** What the compositor shows at one pixel: the frame where the canvas is
    near-white, the canvas elsewhere. *)
Definition composite_pixel (p c : colour) : colour :=
  if 250 <? gray_of c then p else c.

(** The colours of the three colour icons, and white for the eraser. *)
Definition palette : list colour := [(0, 0, 255); (0, 255, 0); (255, 0, 0)].
Definition white : colour := (255, 255, 255).

(** The brush is one the tool icons and buttons can set. *)
Definition brush_ok (st : state) : Prop :=
  brush_thickness st ∈ [5; 10; 20] ∧
  last_color st ∈ palette ∧
  draw_color st ∈ white :: palette.

Definition line_ok (l : line) : Prop :=
  line_thickness l ∈ [5; 10; 20] ∧ line_color l ∈ white :: palette.

(** Mode, mode selection and hover tracking are as they were. *)
Definition same_selection (st st' : state) : Prop :=
  selecting_mode st' = selecting_mode st ∧
  current_mode st' = current_mode st ∧
  hovered_icon st' = hovered_icon st ∧
  hover_start st' = hover_start st.

(** Pen, canvas and brush are as they were. *)
Definition same_painter (st st' : state) : Prop :=
  (xp st', yp st') = (xp st, yp st) ∧
  img_canvas st' = img_canvas st ∧
  brush_thickness st' = brush_thickness st ∧
  draw_color st' = draw_color st ∧
  draw_color_name st' = draw_color_name st ∧
  last_color st' = last_color st.

(** The tracked icon is none or one of the four mode icons. *)
Definition hover_ok (st : state) : Prop := -1 ≤ hovered_icon st < 4.

(** No icon is tracked outside mode selection. *)
Definition no_stale_hover (st : state) : Prop :=
  selecting_mode st = false → hovered_icon st = -1.

(** At most one of the two finger-signature hold timers is running. *)
Definition timers_exclusive (st : state) : Prop :=
  screenshot_start st = 0%Q ∨ select_mode_start st = 0%Q.

(** * Part II: properties *)

(** ** The finger classifier *)

Lemma fingersUp_short (lmList : list landmark) :
  (length lmList < 21)%nat →
  handDetector.fingersUp lmList = Some [0; 0; 0; 0; 0].
Proof.
  intros Hlen. unfold handDetector.fingersUp.
  destruct (Nat.ltb_spec (length lmList) 21) as [_ | Hge]; [done | lia].
Qed.

(** C3. A landmark list with fewer than 21 entries is classified as the
    all-down signature of length 5.  On a list of 21 entries the thumb is
    up iff landmark 4 has a larger x than landmark 3, and each of index,
    middle, ring and pinky is up iff its tip (8, 12, 16, 20) has a strictly
    smaller y than the landmark two below it (6, 10, 14, 18). *)
Theorem fingersUp_classifier :
  (∀ lmList : list landmark,
      (length lmList < 21)%nat →
      handDetector.fingersUp lmList = Some [0; 0; 0; 0; 0]) ∧
  (∀ l0 l1 l2 l3 l4 l5 l6 l7 l8 l9 l10 l11 l12 l13 l14 l15 l16 l17 l18
     l19 l20 : landmark,
      handDetector.fingersUp
        [l0; l1; l2; l3; l4; l5; l6; l7; l8; l9; l10; l11; l12; l13; l14;
         l15; l16; l17; l18; l19; l20]
      = Some [flag (lm_cx l4 >? lm_cx l3);
              flag (lm_cy l8 <? lm_cy l6);
              flag (lm_cy l12 <? lm_cy l10);
              flag (lm_cy l16 <? lm_cy l14);
              flag (lm_cy l20 <? lm_cy l18)]).
Proof.
  split.
  - apply fingersUp_short.
  - intros. unfold handDetector.fingersUp. cbn.
    destruct (lm_cx l4 >? lm_cx l3), (lm_cy l8 <? lm_cy l6),
      (lm_cy l12 <? lm_cy l10), (lm_cy l16 <? lm_cy l14),
      (lm_cy l20 <? lm_cy l18); reflexivity.
Qed.

(** Three landmarks only: the all-down signature. *)
Lemma fingersUp_classifier_witness :
  handDetector.fingersUp
    [Landmark 0 320 400; Landmark 1 300 380; Landmark 2 280 350]
  = Some [0; 0; 0; 0; 0].
Proof.
  apply (proj1 fingersUp_classifier). simpl. lia.
Defined.

(** The classifier never fails, and always returns five flags. *)
Lemma fingersUp_total (lm : list landmark) :
  ∃ t i m r p : Z,
    handDetector.fingersUp lm = Some [t; i; m; r; p] ∧
    is_flag t ∧ is_flag i ∧ is_flag m ∧ is_flag r ∧ is_flag p.
Proof.
  unfold is_flag.
  destruct (decide (length lm < 21)%nat) as [Hlt | Hge].
  - exists 0, 0, 0, 0, 0.
    split; [by apply fingersUp_short | tauto].
  - do 21 (destruct lm as [| ? lm]; [simpl in Hge; lia |]).
    unfold handDetector.fingersUp. cbn.
    repeat match goal with
           | |- context [if ?c then _ else _] => destruct c; cbn
           end;
      (eexists _, _, _, _, _; split; [reflexivity | tauto]).
Qed.

(** ** Landmark distance *)

Lemma IZR_squares_nonneg (dx dy : Z) : (0 <= IZR (dx * dx + dy * dy))%R.
Proof. apply IZR_le. nia. Qed.

Lemma hypot_nonneg (dx dy : Z) : (0 <= handDetector.hypot dx dy)%R.
Proof. apply sqrt_pos. Qed.

Lemma hypot_square (dx dy : Z) :
  (handDetector.hypot dx dy * handDetector.hypot dx dy
   = IZR (dx * dx + dy * dy))%R.
Proof. apply sqrt_sqrt, IZR_squares_nonneg. Qed.

(** Comparing the distance with a whole number of pixels. *)
Lemma hypot_le (dx dy c : Z) :
  0 ≤ c → dx * dx + dy * dy ≤ c * c → (handDetector.hypot dx dy <= IZR c)%R.
Proof.
  intros Hc Hle. unfold handDetector.hypot.
  rewrite <- (sqrt_square (IZR c)) by (apply IZR_le; lia).
  apply sqrt_le_1_alt. rewrite <- mult_IZR. by apply IZR_le.
Qed.

Lemma hypot_ge (dx dy c : Z) :
  0 ≤ c → c * c ≤ dx * dx + dy * dy → (IZR c <= handDetector.hypot dx dy)%R.
Proof.
  intros Hc Hle. unfold handDetector.hypot.
  rewrite <- (sqrt_square (IZR c)) at 1 by (apply IZR_le; lia).
  apply sqrt_le_1_alt. rewrite <- mult_IZR. by apply IZR_le.
Qed.

(** C9. When the landmark list is no longer than [max(p1, p2)], so that a
    requested landmark is absent, [findDistance] returns distance 0 and the
    all-zero vector, whatever the list holds.  Otherwise both landmarks are
    present and it returns their Euclidean distance (the non-negative root
    of the sum of the squared coordinate differences) together with their
    coordinates and their midpoint. *)
Theorem findDistance_contract (p1 p2 : nat) (lmList : list landmark) :
  ((length lmList ≤ p1 `max` p2)%nat →
     (lmList !! p1 = None ∨ lmList !! p2 = None) ∧
     handDetector.findDistance p1 p2 lmList
     = Some (0%R, [0; 0; 0; 0; 0; 0])) ∧
  ((p1 `max` p2 < length lmList)%nat →
     ∃ (a b : landmark) (d : R),
       lmList !! p1 = Some a ∧ lmList !! p2 = Some b ∧
       handDetector.findDistance p1 p2 lmList
       = Some (d, [lm_cx a; lm_cy a; lm_cx b; lm_cy b;
                   (lm_cx a + lm_cx b) `div` 2;
                   (lm_cy a + lm_cy b) `div` 2]) ∧
       (0 <= d)%R ∧
       (d * d = IZR ((lm_cx b - lm_cx a) * (lm_cx b - lm_cx a)
                     + (lm_cy b - lm_cy a) * (lm_cy b - lm_cy a)))%R).
Proof.
  unfold handDetector.findDistance. split; intros Hlen.
  - split.
    + destruct (Nat.max_spec p1 p2) as [[_ Hmax] | [_ Hmax]];
        rewrite Hmax in Hlen; [right | left]; by apply lookup_ge_None.
    + destruct (Nat.leb_spec (length lmList) (p1 `max` p2)); [done | lia].
  - destruct (Nat.leb_spec (length lmList) (p1 `max` p2)); [lia |].
    destruct (lookup_lt_is_Some_2 lmList p1) as [a Ha]; [lia |].
    destruct (lookup_lt_is_Some_2 lmList p2) as [b Hb]; [lia |].
    exists a, b, (handDetector.hypot (lm_cx b - lm_cx a) (lm_cy b - lm_cy a)).
    rewrite Ha, Hb. cbn.
    eauto using hypot_nonneg, hypot_square.
Qed.

(** Two landmarks only: thumb tip 4 and index tip 8 are absent. *)
Lemma findDistance_contract_witness :
  (([Landmark 0 5 5; Landmark 1 9 9] : list landmark) !! 4%nat = None ∨
   ([Landmark 0 5 5; Landmark 1 9 9] : list landmark) !! 8%nat = None) ∧
  handDetector.findDistance 4 8 [Landmark 0 5 5; Landmark 1 9 9]
  = Some (0%R, [0; 0; 0; 0; 0; 0]).
Proof.
  apply (proj1 (findDistance_contract 4 8 [Landmark 0 5 5; Landmark 1 9 9])).
  simpl. lia.
Defined.

(** ** Interpolation *)

(** [np.interp] on an increasing two-point table clamps outside the table
    and is linear inside. *)
Lemma np_interp_clamped (x x0 x1 f0 f1 : R) :
  (x0 < x1)%R →
  ((x <= x0)%R → np_interp x (x0, x1) (f0, f1) = f0) ∧
  ((x1 <= x)%R → np_interp x (x0, x1) (f0, f1) = f1) ∧
  ((x0 <= x <= x1)%R →
     np_interp x (x0, x1) (f0, f1)
     = (f0 + (x - x0) / (x1 - x0) * (f1 - f0))%R).
Proof.
  intros Hinc. unfold np_interp.
  destruct (Rlt_dec x1 x) as [Hr | Hr], (Rlt_dec x x0) as [Hl | Hl],
    (Req_dec_T x x1) as [He | He], (Req_dec_T x0 x) as [He0 | He0];
    repeat split; intros; subst; try lra; field; lra.
Qed.

(** ** The compositor *)

Section zip_same.
Context {A B C : Type}.

(** Against a constant array that leaves every element as it is. *)
Lemma zip_same_replicate_r (f : A → B → option A) (c : B) (l : list A) :
  Forall (λ a, f a c = Some a) l →
  zip_same f l (replicate (length l) c) = Some l.
Proof.
  induction 1 as [| a l Ha _ IH]; [done |].
  simpl. by rewrite Ha, IH.
Qed.

(** Two constant arrays combine into a constant array. *)
Lemma zip_same_replicate (f : A → B → option C) a b c (n : nat) :
  f a b = Some c →
  zip_same f (replicate n a) (replicate n b) = Some (replicate n c).
Proof.
  intros Hf. induction n as [| n IH]; [done |].
  simpl. by rewrite Hf, IH.
Qed.

End zip_same.

Lemma pixelwise_constant_r (f : colour → colour → colour) (c : colour)
    (h w : nat) (img : image) :
  has_shape h w img →
  Forall (Forall (λ p, f p c = p)) img →
  pixelwise f img (replicate h (replicate w c)) = Some img.
Proof.
  intros [<- Hrows] Hpix. unfold pixelwise.
  apply zip_same_replicate_r.
  apply Forall_forall. intros row Hrow.
  rewrite Forall_forall in Hrows, Hpix.
  rewrite <- (Hrows row Hrow).
  apply zip_same_replicate_r.
  eapply Forall_impl; [by apply Hpix |].
  intros p Hp. simpl. by rewrite Hp.
Qed.

Lemma land_255 (v : Z) : uint8 v → Z.land v 255 = v.
Proof.
  intros Hv. change 255 with (Z.ones 8).
  rewrite Z.land_ones by lia. apply Z.mod_small. exact Hv.
Qed.

(** A pure-white canvas is background everywhere. *)
Lemma white_canvas_mask (h w : nat) :
  threshold_BINARY_INV (cvtColor_BGR2GRAY (white_canvas h w)) 250 255
  = replicate h (replicate w 0).
Proof.
  unfold threshold_BINARY_INV, cvtColor_BGR2GRAY, white_canvas.
  by rewrite !fmap_replicate.
Qed.

(** C8. Compositing a frame [F] of [uint8] pixels with the all-white
    canvas of its shape gives [F] itself: every canvas pixel passes the
    gray > 250 threshold, so the inverted mask is zero everywhere. *)
Theorem overlay_white_canvas (h w : nat) (F : image) :
  has_shape h w F →
  uint8_image F →
  threshold_BINARY_INV (cvtColor_BGR2GRAY (white_canvas h w)) 250 255
  = replicate h (replicate w 0) ∧
  overlay_canvas F (white_canvas h w) = Some F.
Proof.
  intros Hshape Hpix. split; [apply white_canvas_mask |].
  unfold overlay_canvas. rewrite white_canvas_mask.
  unfold cvtColor_GRAY2BGR, rsub_255, bitwise_and, add.
  rewrite !fmap_replicate. change ((255 - 0) `mod` 256) with 255.
  rewrite (pixelwise_constant_r _ _ h w F Hshape); cycle 1.
  { eapply Forall_impl; [exact Hpix |]. intros row Hrow.
    eapply Forall_impl; [exact Hrow |].
    intros [[b g] r] (Hb & Hg & Hr). simpl in *.
    by rewrite !land_255. }
  simpl. unfold white_canvas, pixelwise.
  rewrite (zip_same_replicate _ _ _ (replicate w (0, 0, 0))); cycle 1.
  { by apply zip_same_replicate. }
  simpl. apply (pixelwise_constant_r _ _ h w F Hshape).
  eapply Forall_impl; [exact Hpix |]. intros row Hrow.
  eapply Forall_impl; [exact Hrow |].
  intros [[b g] r] (Hb & Hg & Hr). unfold uint8 in *. simpl in *.
  by rewrite !Z.add_0_r, !Z.min_r by lia.
Qed.

(** A frame of two rows of two pixels. *)
Lemma overlay_white_canvas_witness :
  threshold_BINARY_INV (cvtColor_BGR2GRAY (white_canvas 2 2)) 250 255
  = replicate 2 (replicate 2 0) ∧
  overlay_canvas [[(12, 200, 255); (0, 0, 0)]; [(255, 255, 255); (90, 7, 31)]]
    (white_canvas 2 2)
  = Some [[(12, 200, 255); (0, 0, 0)]; [(255, 255, 255); (90, 7, 31)]].
Proof.
  apply overlay_white_canvas.
  - split; [reflexivity |]. repeat constructor.
  - repeat constructor; simpl; lia.
Defined.

(** ** Steps of the frame loop: what each leaves alone *)

Lemma clicks_app (a b : list action) : clicks (a ++ b) = clicks a ++ clicks b.
Proof. apply omap_app. Qed.

Lemma screenshots_app (a b : list action) :
  screenshots (a ++ b) = (screenshots a + screenshots b)%nat.
Proof. unfold screenshots. by rewrite omap_app, length_app. Qed.

Lemma volume_levels_app (a b : list action) :
  volume_levels (a ++ b) = volume_levels a ++ volume_levels b.
Proof. apply omap_app. Qed.

Lemma set_screenshot_start_same (st : state) :
  set_screenshot_start (screenshot_start st) st = st.
Proof. by destruct st. Qed.

Lemma set_select_mode_start_same (st : state) :
  set_select_mode_start (select_mode_start st) st = st.
Proof. by destruct st. Qed.

Lemma set_selecting_mode_same (st : state) :
  set_selecting_mode (selecting_mode st) st = st.
Proof. by destruct st. Qed.

(** The screenshot step touches nothing but its timer. *)
Lemma screenshot_trigger_state (fingers : list Z) (now : Q) (st : state) :
  ∃ v, (screenshot_trigger fingers now st).1 = set_screenshot_start v st.
Proof.
  unfold screenshot_trigger.
  repeat match goal with
         | |- context [if ?c then _ else _] => destruct c
         end; simpl; eauto using eq_sym, set_screenshot_start_same.
Qed.

Lemma screenshot_trigger_actions (fingers : list Z) (now : Q) (st : state) :
  clicks (screenshot_trigger fingers now st).2 = [] ∧
  volume_levels (screenshot_trigger fingers now st).2 = [].
Proof.
  unfold screenshot_trigger.
  repeat match goal with
         | |- context [if ?c then _ else _] => destruct c
         end; done.
Qed.

(** The mode-select step touches nothing but its timer and
    [selecting_mode]. *)
Lemma mode_select_entry_state (fingers : list Z) (now : Q) (st : state) :
  ∃ v b,
    mode_select_entry fingers now st
    = set_selecting_mode b (set_select_mode_start v st).
Proof.
  unfold mode_select_entry.
  repeat match goal with
         | |- context [if ?c then _ else _] => destruct c
         end.
  - exists now, (selecting_mode st). by destruct st.
  - exists (select_mode_start st), true. by destruct st.
  - exists (select_mode_start st), (selecting_mode st). by destruct st.
  - exists 0%Q, (selecting_mode st). by destruct st.
Qed.

(** Both steps together, as the dispatch finds the state. *)
Lemma before_dispatch_state (fingers : list Z) (now : Q) (st : state) :
  ∃ v w,
    mode_select_entry fingers now (screenshot_trigger fingers now st).1
    = set_selecting_mode
        (selecting_mode (mode_select_entry fingers now st))
        (set_select_mode_start v (set_screenshot_start w st)).
Proof.
  destruct (screenshot_trigger_state fingers now st) as [w ->].
  destruct (mode_select_entry_state fingers now (set_screenshot_start w st))
    as (v & b & Heq).
  exists v, w. rewrite Heq. f_equal.
  revert Heq. unfold mode_select_entry. simpl.
  repeat match goal with
         | |- context [if ?c then _ else _] => destruct c
         end; simpl; intros Heq; by apply (f_equal selecting_mode) in Heq.
Qed.

(** [check_hover] never fails. *)
Lemma hover_loop_frame (d : driver) (positions : list (Z * Z)) (i : nat)
    (index_pos : Z * Z) (now : Q) (st : state) :
  (i + length positions ≤ 4)%nat →
  ∃ st', hover_loop d i positions index_pos now st = Some st' ∧
         same_timers st st' ∧ click_armed st' = click_armed st.
Proof.
  revert i. induction positions as [| [x y] positions IH]; intros i Hi.
  - by eexists.
  - simpl in *.
    destruct (between x index_pos.1 (ICON_SIZE d)
              && between y index_pos.2 (ICON_SIZE d)).
    + destruct (hovered_icon st =? Z.of_nat i); [| by eexists].
      destruct (Qlt_bool HOVER_HOLD (now - hover_start st)); [| by eexists].
      destruct (lookup_lt_is_Some_2 mode_names i) as [m ->]; [simpl; lia |].
      simpl. destruct d; by eexists.
    + apply IH. lia.
Qed.

Lemma select_tool_frame (name : painter_option) (st : state) :
  same_timers st (select_tool name st) ∧
  click_armed (select_tool name st) = click_armed st.
Proof. by destruct name. Qed.

Lemma select_tool_at_frame (d : driver) (c : Z * Z) (st : state) :
  same_timers st (select_tool_at d c st) ∧
  click_armed (select_tool_at d c st) = click_armed st.
Proof.
  unfold select_tool_at. generalize (painter_options d).
  intros options. revert st.
  induction options as [| [name [x y]] options IH]; intros st; [done |].
  simpl.
  destruct (between x c.1 (ICON_SIZE d) && between y c.2 (ICON_SIZE d));
    [| apply IH].
  destruct (IH (select_tool name st)) as ([H1 H2] & H3).
  destruct (select_tool_frame name st) as ([H4 H5] & H6).
  unfold same_timers. repeat split; congruence.
Qed.

Lemma stroke_frame (f1 f2 : Z) (c : Z * Z) (st : state) :
  same_timers st (stroke f1 f2 c st) ∧
  click_armed (stroke f1 f2 c st) = click_armed st.
Proof.
  unfold stroke.
  repeat match goal with
         | |- context [if ?c then _ else _] => destruct c
         end; done.
Qed.

Lemma painter_branch_frame (d : driver) (lm : list landmark)
    (t i m r p : Z) (st : state) :
  ∃ st', painter_branch d lm [t; i; m; r; p] st = Some st' ∧
         same_timers st st' ∧ click_armed st' = click_armed st.
Proof.
  unfold painter_branch.
  destruct (Nat.ltb_spec 8 (length lm)) as [Hlen | _]; [| by eexists].
  destruct (lookup_lt_is_Some_2 lm 8 Hlen) as [index ->]. simpl.
  eexists. split; [reflexivity |].
  match goal with
  | |- context [stroke i m ?c ?st1] =>
      destruct (stroke_frame i m c st1) as ([H1 H2] & H3);
      assert (same_timers st st1 ∧ click_armed st1 = click_armed st)
        as ([H4 H5] & H6)
  end.
  { match goal with
    | |- context [if ?c then _ else _] => destruct c
    end; [apply select_tool_at_frame | done]. }
  unfold same_timers. repeat split; congruence.
Qed.

(** The mouse branch: its effect on the arm flag and its clicks are those
    of [click_gestures]. *)
Lemma mouse_branch_frame (env : environment) (lm : list landmark)
    (t i m r p : Z) (st : state) :
  (12 < length lm)%nat →
  ∃ acts,
    mouse_branch env lm [t; i; m; r; p] st
    = Some ((click_gestures i m st).1, acts) ∧
    clicks acts = clicks (click_gestures i m st).2 ∧
    screenshots acts = 0%nat.
Proof.
  intros Hlen. unfold mouse_branch.
  destruct (lookup_lt_is_Some_2 lm 8) as [index ->]; [lia |].
  destruct (lookup_lt_is_Some_2 lm 12) as [middle ->]; [lia |].
  simpl. destruct (click_gestures i m st) as [st' cl] eqn:Hclick.
  eexists. split; [reflexivity |]. simpl.
  assert (screenshots cl = 0%nat ∧ ∀ a, clicks (a ++ cl) = clicks a ++ clicks cl)
    as [Hshots Hcl].
  { split; [| intros a; apply omap_app].
    revert Hclick. unfold click_gestures.
    repeat match goal with
           | |- context [if ?c then _ else _] => destruct c
           end; by intros [= _ <-]. }
  match goal with
  | |- context [if ?c then _ else _] => destruct c
  end; by rewrite ?Hcl.
Qed.

Lemma click_gestures_timers (f1 f2 : Z) (st : state) :
  same_timers st (click_gestures f1 f2 st).1.
Proof.
  unfold click_gestures.
  repeat match goal with
         | |- context [if ?c then _ else _] => destruct c
         end; done.
Qed.

Lemma findDistance_present (p1 p2 : nat) (lm : list landmark) :
  (p1 `max` p2 < length lm)%nat →
  ∃ a b,
    lm !! p1 = Some a ∧ lm !! p2 = Some b ∧
    handDetector.findDistance p1 p2 lm
    = Some (handDetector.hypot (lm_cx b - lm_cx a) (lm_cy b - lm_cy a),
            [lm_cx a; lm_cy a; lm_cx b; lm_cy b;
             (lm_cx a + lm_cx b) `div` 2; (lm_cy a + lm_cy b) `div` 2]).
Proof.
  intros Hlen. unfold handDetector.findDistance.
  destruct (Nat.leb_spec (length lm) (p1 `max` p2)); [lia |].
  destruct (lookup_lt_is_Some_2 lm p1) as [a Ha]; [lia |].
  destruct (lookup_lt_is_Some_2 lm p2) as [b Hb]; [lia |].
  exists a, b. by rewrite Ha, Hb.
Qed.

Lemma volume_branch_frame (env : environment) (lm : list landmark) :
  (8 < length lm)%nat →
  ∃ thumb index,
    lm !! 4%nat = Some thumb ∧ lm !! 8%nat = Some index ∧
    volume_branch env lm
    = Some [SetMasterVolumeLevel
              (np_interp
                 (handDetector.hypot (lm_cx index - lm_cx thumb)
                    (lm_cy index - lm_cy thumb))
                 (20%R, 200%R) (vol_min env, vol_max env))].
Proof.
  intros Hlen.
  destruct (findDistance_present 4 8 lm) as (a & b & Ha & Hb & Hd);
    [simpl; lia |].
  exists a, b. unfold volume_branch. by rewrite Hd.
Qed.

Lemma scroll_branch_frame (t i m r p : Z) :
  ∃ acts,
    scroll_branch [t; i; m; r; p] = Some acts ∧
    clicks acts = [] ∧ screenshots acts = 0%nat ∧ volume_levels acts = [].
Proof.
  unfold scroll_branch. simpl.
  repeat match goal with
         | |- context [if ?c then _ else _] => destruct c
         end; by eexists.
Qed.

(** The dispatch never fails on a five-flag signature; it leaves the hold
    timers alone and takes no screenshot, and outside the mouse branch it
    neither touches the arm flag nor clicks. *)
Lemma dispatch_frame (d : driver) (env : environment) (f : frame)
    (t i m r p : Z) (st : state) :
  ∃ st' acts,
    dispatch d env f [t; i; m; r; p] st = Some (st', acts) ∧
    same_timers st st' ∧
    screenshots acts = 0%nat ∧
    (selecting_mode st = true ∨ current_mode st ≠ mouse ∨
     (length (lmList f) ≤ 12)%nat →
     click_armed st' = click_armed st ∧ clicks acts = []).
Proof.
  unfold dispatch. destruct (selecting_mode st) eqn:Hsel.
  - destruct (Nat.ltb_spec 8 (length (lmList f))) as [Hlen | _];
      [| by eexists _, _].
    destruct (lookup_lt_is_Some_2 (lmList f) 8 Hlen) as [index ->]. simpl.
    destruct (hover_loop_frame d (mode_icon_positions d) 0 (position index)
                (hover_time f) st) as (st' & Hhover & Htimers & Harm).
    { by destruct d. }
    unfold check_hover. rewrite Hhover. simpl. by eexists _, _.
  - destruct (current_mode st) eqn:Hmode.
    + destruct (Nat.ltb_spec 12 (length (lmList f))) as [Hlen | Hlen];
        [| by eexists _, _].
      destruct (mouse_branch_frame env (lmList f) t i m r p st Hlen)
        as (acts & -> & Hclicks & Hshots).
      eexists _, _. split; [reflexivity |].
      split; [apply click_gestures_timers |]. split; [done |].
      intros [? | [? | ?]]; [done | done | lia].
    + destruct (Nat.ltb_spec 8 (length (lmList f))) as [Hlen | _];
        [| by eexists _, _].
      destruct (volume_available env); [| by eexists _, _].
      destruct (volume_branch_frame env (lmList f) Hlen)
        as (a & b & _ & _ & ->).
      by eexists _, _.
    + destruct (painter_branch_frame d (lmList f) t i m r p st)
        as (st' & -> & Htimers & Harm).
      by eexists _, _.
    + destruct (scroll_branch_frame t i m r p)
        as (acts & -> & Hclicks & Hshots & _).
      by eexists _, _.
Qed.

Lemma end_of_frame_frame (d : driver) (st : state) :
  same_timers st (end_of_frame d st) ∧
  click_armed (end_of_frame d st) = click_armed st ∧
  current_mode (end_of_frame d st) = current_mode st ∧
  selecting_mode (end_of_frame d st) = selecting_mode st ∧
  (xp (end_of_frame d st), yp (end_of_frame d st)) = (xp st, yp st) ∧
  img_canvas (end_of_frame d st) = img_canvas st.
Proof.
  destruct d; [done |]. simpl.
  by destruct (selecting_mode st) eqn:Hsel; rewrite ?Hsel.
Qed.

(** ** Whole frames *)

Lemma fingers_of_total (lm : list landmark) :
  ∃ t i m r p : Z,
    fingers_of lm = Some [t; i; m; r; p] ∧
    is_flag t ∧ is_flag i ∧ is_flag m ∧ is_flag r ∧ is_flag p.
Proof.
  destruct lm as [| l lm]; [| apply fingersUp_total].
  exists 0, 0, 0, 0, 0. unfold is_flag. tauto.
Qed.

(** A frame with a hand: the two hold checks, then the dispatch. *)
Lemma process_frame_hand (d : driver) (env : environment) (st : state)
    (f : frame) (fingers : list Z) :
  lmList f ≠ [] →
  fingers_of (lmList f) = Some fingers →
  process_frame d env st f
  = '(st3, acts) ←
      dispatch d env f fingers
        (mode_select_entry fingers (cTime f)
           (screenshot_trigger fingers (cTime f) st).1);
    Some (end_of_frame d st3,
          (screenshot_trigger fingers (cTime f) st).2 ++ acts).
Proof.
  intros Hhand Hfingers. unfold process_frame. rewrite Hfingers. simpl.
  destruct (lmList f); [done |].
  by destruct (screenshot_trigger fingers (cTime f) st).
Qed.

(** A frame without a hand changes nothing, except that [gui_main.py]
    clears the hovered icon outside mode selection. *)
Lemma process_frame_no_hand (d : driver) (env : environment) (st : state)
    (f : frame) :
  lmList f = [] → process_frame d env st f = Some (end_of_frame d st, []).
Proof. intros Hnone. unfold process_frame. by rewrite Hnone. Qed.

(** Every frame is processed: the loop body raises no [IndexError]. *)
Lemma process_frame_total (d : driver) (env : environment) (st : state)
    (f : frame) :
  is_Some (process_frame d env st f).
Proof.
  destruct (decide (lmList f = [])) as [Hnone | Hhand].
  - by rewrite process_frame_no_hand.
  - destruct (fingers_of_total (lmList f)) as (t & i & m & r & p & Hf & _).
    rewrite (process_frame_hand _ _ _ _ _ Hhand Hf).
    destruct (dispatch_frame d env f t i m r p
                (mode_select_entry [t; i; m; r; p] (cTime f)
                   (screenshot_trigger [t; i; m; r; p] (cTime f) st).1))
      as (st' & acts & -> & _).
    by eexists.
Qed.

Lemma mode_selecting_hand (st : state) (f : frame) (fingers : list Z) :
  lmList f ≠ [] →
  fingers_of (lmList f) = Some fingers →
  mode_selecting st f = selecting_mode (mode_select_entry fingers (cTime f) st).
Proof.
  intros Hhand Hfingers. unfold mode_selecting. rewrite Hfingers.
  by destruct (lmList f).
Qed.

(** Mode selection, once on, is still on at the dispatch. *)
Lemma mode_selecting_stays (st : state) (f : frame) :
  selecting_mode st = true → mode_selecting st f = true.
Proof.
  intros Hsel. unfold mode_selecting.
  destruct (lmList f); [done |].
  destruct (fingers_of _); [| done].
  unfold mode_select_entry.
  repeat match goal with
         | |- context [if ?c then _ else _] => destruct c
         end; done.
Qed.

(** A hand frame dispatched to a branch: the state the branch finds and
    what the frame returns, in terms of the dispatch alone. *)
Lemma process_frame_dispatch (d : driver) (env : environment) (st : state)
    (f : frame) (t i m r p : Z) :
  lmList f ≠ [] →
  fingers_of (lmList f) = Some [t; i; m; r; p] →
  ∃ v w st3 acts3,
    let st2 :=
      set_selecting_mode (mode_selecting st f)
        (set_select_mode_start v (set_screenshot_start w st)) in
    dispatch d env f [t; i; m; r; p] st2 = Some (st3, acts3) ∧
    ∃ shots,
      process_frame d env st f = Some (end_of_frame d st3, shots ++ acts3) ∧
      clicks shots = [] ∧ volume_levels shots = [].
Proof.
  intros Hhand Hfingers.
  rewrite (process_frame_hand _ _ _ _ _ Hhand Hfingers).
  rewrite (mode_selecting_hand _ _ _ Hhand Hfingers).
  destruct (before_dispatch_state [t; i; m; r; p] (cTime f) st)
    as (v & w & ->).
  exists v, w.
  match goal with
  | |- context [dispatch d env f _ ?st2] =>
      destruct (dispatch_frame d env f t i m r p st2)
        as (st3 & acts3 & Hdispatch & _)
  end.
  exists st3, acts3. simpl. rewrite Hdispatch. split; [done |].
  eexists. split; [reflexivity |]. apply screenshot_trigger_actions.
Qed.

(** ** Mouse mode: arming and clicking *)

(** C4. On a frame handled by the mouse branch (a hand of more than 12
    landmarks, mode selection off at the dispatch, mode mouse): index and
    middle both up arm the click and click nothing; when armed, index down
    with middle up clicks left exactly once and disarms; when armed, both
    down click right exactly once and disarms; when armed, index up with
    middle down keeps the click armed and clicks nothing. *)
Theorem mouse_click_gestures (d : driver) (env : environment) (st : state)
    (f : frame) (t i m r p : Z) :
  fingers_of (lmList f) = Some [t; i; m; r; p] →
  (12 < length (lmList f))%nat →
  mode_selecting st f = false →
  current_mode st = mouse →
  ∃ st' acts,
    process_frame d env st f = Some (st', acts) ∧
    (truthy i = true → truthy m = true →
       click_armed st' = true ∧ clicks acts = []) ∧
    (click_armed st = true → truthy i = false → truthy m = true →
       click_armed st' = false ∧ clicks acts = [left]) ∧
    (click_armed st = true → truthy i = false → truthy m = false →
       click_armed st' = false ∧ clicks acts = [right]) ∧
    (click_armed st = true → truthy i = true → truthy m = false →
       click_armed st' = true ∧ clicks acts = []).
Proof.
  intros Hfingers Hlen Hsel Hmode.
  assert (lmList f ≠ []) as Hhand by (intros Heq; rewrite Heq in Hlen; simpl in Hlen; lia).
  destruct (process_frame_dispatch d env st f t i m r p Hhand Hfingers)
    as (v & w & st3 & acts3 & Hdispatch & shots & -> & Hshots & _).
  simpl in Hdispatch. rewrite Hsel in Hdispatch.
  unfold dispatch in Hdispatch. simpl in Hdispatch.
  rewrite Hmode in Hdispatch.
  destruct (Nat.ltb_spec 12 (length (lmList f))) as [_ | ?]; [| lia].
  match type of Hdispatch with
  | mouse_branch _ _ _ ?st2 = _ =>
      destruct (mouse_branch_frame env (lmList f) t i m r p st2 Hlen)
        as (acts & Hbranch & Hclicks & _)
  end.
  rewrite Hbranch in Hdispatch. injection Hdispatch as <- <-.
  eexists _, _. split; [reflexivity |].
  destruct (end_of_frame_frame d
              (click_gestures i m
                 (set_selecting_mode false
                    (set_select_mode_start v (set_screenshot_start w st)))).1)
    as (_ & -> & _).
  rewrite clicks_app, Hshots, Hclicks.
  unfold click_gestures. simpl.
  repeat split; intros; subst;
    repeat match goal with
           | H : _ = _ |- _ => rewrite H
           end; done.
Qed.

(** Armed, then the middle finger alone: one left click, disarmed. *)
Lemma mouse_click_gestures_witness :
  ∃ st' acts,
    process_frame Console sample_env (set_click_armed true initial_state)
      (shows 300 300 middle_only 25)
    = Some (st', acts) ∧
    click_armed st' = false ∧ clicks acts = [left].
Proof.
  destruct (mouse_click_gestures Console sample_env
              (set_click_armed true initial_state)
              (shows 300 300 middle_only 25) 0 0 1 0 0)
    as (st' & acts & Hframe & _ & Hleft & _).
  - reflexivity.
  - simpl. lia.
  - reflexivity.
  - reflexivity.
  - exists st', acts. split; [exact Hframe | by apply Hleft].
Defined.

(** C10. The arm flag is written by the mouse branch only: a frame
    without a hand, a frame handled by mode selection, a frame in another
    mode and a frame with fewer than 13 landmarks all leave it as it was
    and click nothing.  Hence a click armed in mouse mode survives a switch
    to volume mode, the loss of the hand and the switch back, and the first
    mouse-mode frame after returning, showing the middle finger only, fires
    a left click although nothing armed it since. *)
Theorem click_armed_only_in_mouse_branch :
  (∀ (d : driver) (env : environment) (st : state) (f : frame),
      lmList f = [] ∨ selecting_mode st = true ∨ mode_selecting st f = true ∨
      current_mode st ≠ mouse ∨ (length (lmList f) < 13)%nat →
      ∃ st' acts,
        process_frame d env st f = Some (st', acts) ∧
        click_armed st' = click_armed st ∧ clicks acts = []) ∧
  (∀ d : driver,
      ∃ st1 st2 st3 acts1 acts2 acts3,
        run d sample_env initial_state
          [shows 200 80 five 10; shows 200 80 five (25 / 2);
           shows 200 80 index_only 14]
        = Some (st1, acts1) ∧
        current_mode st1 = volume ∧ click_armed st1 = true ∧
        clicks <$> acts1 = [[]; []; []] ∧
        run d sample_env st1
          [no_hand 15; shows 80 80 five 20; shows 80 80 five (45 / 2);
           shows 80 80 index_only 24]
        = Some (st2, acts2) ∧
        current_mode st2 = mouse ∧ selecting_mode st2 = false ∧
        click_armed st2 = true ∧ clicks <$> acts2 = [[]; []; []; []] ∧
        process_frame d sample_env st2 (shows 80 80 middle_only 25)
        = Some (st3, acts3) ∧
        clicks acts3 = [left] ∧ click_armed st3 = false).
Proof.
  split.
  - intros d env st f Hcase.
    destruct (decide (lmList f = [])) as [Hnone | Hhand].
    { rewrite (process_frame_no_hand _ _ _ _ Hnone).
      eexists _, _. split; [reflexivity |].
      split; [apply end_of_frame_frame | done]. }
    destruct (fingers_of_total (lmList f)) as (t & i & m & r & p & Hf & _).
    rewrite (process_frame_hand _ _ _ _ _ Hhand Hf).
    assert (mode_selecting st f = true ∨ current_mode st ≠ mouse ∨
            (length (lmList f) ≤ 12)%nat) as Hcase'.
    { destruct Hcase as [? | [? | [? | [? | ?]]]];
        [done | left; by apply mode_selecting_stays | by left
        | right; by left | right; right; lia]. }
    rewrite (mode_selecting_hand _ _ _ Hhand Hf) in Hcase'.
    destruct (screenshot_trigger_actions [t; i; m; r; p] (cTime f) st)
      as [Hshots _].
    destruct (before_dispatch_state [t; i; m; r; p] (cTime f) st)
      as (v & w & Hst2).
    rewrite Hst2.
    match goal with
    | |- context [dispatch d env f _ ?st2] =>
        destruct (dispatch_frame d env f t i m r p st2)
          as (st3 & acts3 & -> & _ & _ & Harm)
    end.
    simpl in Harm. destruct (Harm Hcase') as [Harm3 Hclicks3].
    eexists _, _. split; [reflexivity |].
    rewrite clicks_app, Hshots, Hclicks3.
    split; [| done].
    destruct (end_of_frame_frame d st3) as (_ & -> & _). exact Harm3.
  - intros d.
    destruct d; eexists _, _, _, _, _, _;
      repeat (split; [vm_compute; reflexivity |]); vm_compute; reflexivity.
Qed.

(** An armed click outlives a frame without a hand. *)
Lemma click_armed_only_in_mouse_branch_witness :
  ∃ st' acts,
    process_frame Gui sample_env (set_click_armed true initial_state)
      (no_hand 15)
    = Some (st', acts) ∧
    click_armed st' = click_armed (set_click_armed true initial_state) ∧
    clicks acts = [].
Proof.
  apply (proj1 click_armed_only_in_mouse_branch). by left.
Defined.

(** ** Volume mode *)

(** C7. On a frame handled by the volume branch (mode selection off at the
    dispatch, mode volume, thumb tip 4 and index tip 8 present, an audio
    endpoint available) the frame sets exactly one
    volume level: the thumb-index Euclidean pixel distance (the
    non-negative root of the sum of the squared coordinate differences)
    interpolated linearly from [20, 200] onto [vol_min, vol_max] and
    clamped, so that a distance of at most 20 gives [vol_min] and a
    distance of at least 200 (300, say) gives [vol_max]. *)
Theorem volume_level_clamped_interpolation (d : driver) (env : environment)
    (st : state) (f : frame) :
  (8 < length (lmList f))%nat →
  mode_selecting st f = false →
  current_mode st = volume →
  volume_available env = true →
  ∃ st' acts thumb index dist,
    lmList f !! 4%nat = Some thumb ∧
    lmList f !! 8%nat = Some index ∧
    process_frame d env st f = Some (st', acts) ∧
    (0 <= dist)%R ∧
    (dist * dist
     = IZR ((lm_cx index - lm_cx thumb) * (lm_cx index - lm_cx thumb)
            + (lm_cy index - lm_cy thumb) * (lm_cy index - lm_cy thumb)))%R ∧
    ∃ vol,
      volume_levels acts = [vol] ∧
      ((dist <= 20)%R → vol = vol_min env) ∧
      ((200 <= dist)%R → vol = vol_max env) ∧
      ((20 <= dist <= 200)%R →
         vol = (vol_min env
                + (dist - 20) / (200 - 20) * (vol_max env - vol_min env))%R).
Proof.
  intros Hlen Hsel Hmode Haudio.
  assert (lmList f ≠ []) as Hhand
    by (intros Heq; rewrite Heq in Hlen; simpl in Hlen; lia).
  destruct (fingers_of_total (lmList f)) as (t & i & m & r & p & Hf & _).
  destruct (process_frame_dispatch d env st f t i m r p Hhand Hf)
    as (v & w & st3 & acts3 & Hdispatch & shots & -> & _ & Hshots).
  simpl in Hdispatch. rewrite Hsel in Hdispatch.
  unfold dispatch in Hdispatch. simpl in Hdispatch.
  rewrite Hmode, Haudio in Hdispatch.
  destruct (Nat.ltb_spec 8 (length (lmList f))) as [_ | ?]; [| lia].
  destruct (volume_branch_frame env (lmList f) Hlen)
    as (thumb & index & Hthumb & Hindex & Hbranch).
  rewrite Hbranch in Hdispatch. simpl in Hdispatch.
  injection Hdispatch as <- <-.
  exists (end_of_frame d
            (set_selecting_mode false
               (set_select_mode_start v (set_screenshot_start w st)))).
  eexists _, thumb, index,
    (handDetector.hypot (lm_cx index - lm_cx thumb)
       (lm_cy index - lm_cy thumb)).
  do 3 (split; [done |]).
  split; [apply hypot_nonneg |]. split; [apply hypot_square |].
  eexists. rewrite volume_levels_app, Hshots. split; [reflexivity |].
  apply np_interp_clamped. lra.
Qed.

(** Thumb tip at (300, 300), index tip at (600, 300): 300 pixels apart,
    the level is [vol_max]. *)
Lemma volume_level_clamped_interpolation_witness :
  ∃ st' acts,
    process_frame Console audio_env (set_current_mode volume initial_state)
      (Frame (<[8%nat := Landmark 8 600 300]> (hand 300 300 fist)) 10 10)
    = Some (st', acts) ∧
    volume_levels acts = [vol_max audio_env].
Proof.
  destruct (volume_level_clamped_interpolation Console audio_env
              (set_current_mode volume initial_state)
              (Frame (<[8%nat := Landmark 8 600 300]> (hand 300 300 fist))
                 10 10))
    as (st' & acts & thumb & index & dist & Hthumb & Hindex & Hframe
        & Hpos & Hsquare & vol & Hvol & _ & Hmax & _).
  - simpl. lia.
  - reflexivity.
  - reflexivity.
  - reflexivity.
  - exists st', acts. split; [exact Hframe |].
    rewrite Hvol. f_equal. apply Hmax.
    injection Hthumb as <-. injection Hindex as <-.
    change (dist * dist = 90000)%R in Hsquare. nra.
Defined.

(** ** The hold timers *)

Lemma mode_select_entry_independent (fingers : list Z) (now w : Q)
    (st : state) :
  select_mode_start (mode_select_entry fingers now (set_screenshot_start w st))
  = select_mode_start (mode_select_entry fingers now st) ∧
  screenshot_start (mode_select_entry fingers now (set_screenshot_start w st))
  = w.
Proof.
  unfold mode_select_entry. simpl.
  repeat match goal with
         | |- context [if ?c then _ else _] => destruct c
         end; done.
Qed.

(** On a frame with a hand the timers end as the two hold checks leave
    them, and the only screenshots are those of the screenshot check. *)
Lemma process_frame_timers (d : driver) (env : environment) (st : state)
    (f : frame) (fingers : list Z) :
  lmList f ≠ [] →
  fingers_of (lmList f) = Some fingers →
  ∃ st' acts,
    process_frame d env st f = Some (st', acts) ∧
    screenshot_start st'
    = screenshot_start (screenshot_trigger fingers (cTime f) st).1 ∧
    select_mode_start st'
    = select_mode_start (mode_select_entry fingers (cTime f) st) ∧
    screenshots acts = screenshots (screenshot_trigger fingers (cTime f) st).2.
Proof.
  intros Hhand Hfingers.
  destruct (fingers_of_total (lmList f)) as (t & i & m & r & p & Hf & _).
  assert (fingers = [t; i; m; r; p]) as -> by congruence.
  rewrite (process_frame_hand _ _ _ _ _ Hhand Hf).
  destruct (screenshot_trigger_state [t; i; m; r; p] (cTime f) st)
    as [w Hst1].
  rewrite Hst1.
  destruct (mode_select_entry_independent [t; i; m; r; p] (cTime f) w st)
    as [Hselect Hshot].
  match goal with
  | |- context [dispatch d env f _ ?st2] =>
      destruct (dispatch_frame d env f t i m r p st2)
        as (st3 & acts3 & -> & [Hshot3 Hselect3] & Hnone & _)
  end.
  destruct (end_of_frame_frame d st3) as ([Hshot4 Hselect4] & _).
  eexists _, _. split; [reflexivity |].
  rewrite screenshots_app, Hnone, Hshot4, Hselect4, Hshot3, Hselect3.
  by rewrite Hshot, Hselect, Nat.add_0_r.
Qed.

Lemma run_app (d : driver) (env : environment) (st : state)
    (frames frames' : list frame) :
  run d env st (frames ++ frames')
  = '(st1, acts1) ← run d env st frames;
    '(st2, acts2) ← run d env st1 frames';
    Some (st2, acts1 ++ acts2).
Proof.
  revert st. induction frames as [| f frames IH]; intros st; simpl.
  - by destruct (run d env st frames') as [[? ?] |].
  - destruct (process_frame d env st f) as [[st' acts] |]; [| done].
    simpl. rewrite IH.
    destruct (run d env st' frames) as [[st1 acts1] |]; [| done].
    simpl. by destruct (run d env st1 frames') as [[? ?] |].
Qed.

Section held_fist.
Context (d : driver) (env : environment).

(** A fist frame on an unset timer starts it. *)
Lemma fist_starts (st : state) (f : frame) :
  fist_frame f →
  (screenshot_start st == 0)%Q →
  ∃ st' acts,
    process_frame d env st f = Some (st', acts) ∧
    screenshots acts = 0%nat ∧ screenshot_start st' = cTime f.
Proof.
  intros [Hhand Hfist] Hunset.
  destruct (process_frame_timers d env st f _ Hhand Hfist)
    as (st' & acts & Hframe & Hstart & _ & Hshots).
  exists st', acts. split; [done |]. rewrite Hstart, Hshots.
  unfold screenshot_trigger. simpl.
  apply Qeq_bool_iff in Hunset. by rewrite Hunset.
Qed.

(** A fist frame short of the hold leaves the running timer alone. *)
Lemma fist_waits (st : state) (f : frame) :
  fist_frame f →
  ¬ (screenshot_start st == 0)%Q →
  (cTime f - screenshot_start st < SCREENSHOT_HOLD)%Q →
  ∃ st' acts,
    process_frame d env st f = Some (st', acts) ∧
    screenshots acts = 0%nat ∧ screenshot_start st' = screenshot_start st.
Proof.
  intros [Hhand Hfist] Hset Hshort.
  destruct (process_frame_timers d env st f _ Hhand Hfist)
    as (st' & acts & Hframe & Hstart & _ & Hshots).
  exists st', acts. split; [done |]. rewrite Hstart, Hshots.
  unfold screenshot_trigger, Qge_bool. simpl.
  destruct (Qeq_bool (screenshot_start st) 0) eqn:Heq.
  { by apply Qeq_bool_iff in Heq. }
  destruct (Qle_bool SCREENSHOT_HOLD (cTime f - screenshot_start st)) eqn:Hle;
    [| done].
  apply Qle_bool_iff in Hle. by apply Qlt_not_le in Hshort.
Qed.

(** A fist frame that reaches the hold takes one screenshot and unsets
    the timer. *)
Lemma fist_fires (st : state) (f : frame) :
  fist_frame f →
  ¬ (screenshot_start st == 0)%Q →
  (SCREENSHOT_HOLD <= cTime f - screenshot_start st)%Q →
  ∃ st' acts,
    process_frame d env st f = Some (st', acts) ∧
    screenshots acts = 1%nat ∧ screenshot_start st' = 0%Q.
Proof.
  intros [Hhand Hfist] Hset Hheld.
  destruct (process_frame_timers d env st f _ Hhand Hfist)
    as (st' & acts & Hframe & Hstart & _ & Hshots).
  exists st', acts. split; [done |]. rewrite Hstart, Hshots.
  unfold screenshot_trigger, Qge_bool. simpl.
  destruct (Qeq_bool (screenshot_start st) 0) eqn:Heq.
  { by apply Qeq_bool_iff in Heq. }
  apply Qle_bool_iff in Hheld. by rewrite Hheld.
Qed.

(** Fist frames short of the hold, one after another. *)
Lemma run_waiting (st : state) (frames : list frame) :
  Forall fist_frame frames →
  ¬ (screenshot_start st == 0)%Q →
  Forall (λ f, (cTime f - screenshot_start st < SCREENSHOT_HOLD)%Q) frames →
  ∃ st' acts,
    run d env st frames = Some (st', acts) ∧
    screenshots <$> acts = replicate (length frames) 0%nat ∧
    screenshot_start st' = screenshot_start st.
Proof.
  intros Hfists. revert st.
  induction Hfists as [| f frames Hfist _ IH]; intros st Hset Hshort.
  - by eexists _, _.
  - apply Forall_cons in Hshort as [Hf Hshort].
    destruct (fist_waits st f Hfist Hset Hf) as (st1 & acts1 & Hrun1 & H0 & Hs).
    destruct (IH st1) as (st' & acts & Hrun & Hzeros & Hs');
      [by rewrite Hs | by rewrite Hs |].
    exists st', (acts1 :: acts). rewrite fmap_cons, H0, Hzeros.
    simpl. rewrite Hrun1. simpl. rewrite Hrun.
    split; [done |]. split; [done | congruence].
Qed.

(** A fist held on a running timer: the frames short of the hold, then
    the frame that fires. *)
Lemma run_hold (st : state) (early : list frame) (f_fire : frame) :
  Forall fist_frame (early ++ [f_fire]) →
  ¬ (screenshot_start st == 0)%Q →
  Forall (λ f, (cTime f - screenshot_start st < SCREENSHOT_HOLD)%Q) early →
  (SCREENSHOT_HOLD <= cTime f_fire - screenshot_start st)%Q →
  ∃ st' acts,
    run d env st (early ++ [f_fire]) = Some (st', acts) ∧
    screenshots <$> acts = replicate (length early) 0%nat ++ [1%nat] ∧
    screenshot_start st' = 0%Q.
Proof.
  intros Hfists Hset Hshort Hheld.
  apply Forall_app in Hfists as [Hearly Hfire].
  apply Forall_cons in Hfire as [Hfire _].
  destruct (run_waiting st early Hearly Hset Hshort)
    as (st1 & acts1 & Hrun1 & Hzeros & Hs1).
  destruct (fist_fires st1 f_fire Hfire) as (st2 & acts2 & Hrun2 & Hone & Hs2);
    [by rewrite Hs1 | by rewrite Hs1 |].
  exists st2, (acts1 ++ [acts2]).
  rewrite fmap_app, Hzeros, !fmap_cons, Hone.
  rewrite run_app, Hrun1. simpl. rewrite Hrun2.
  by split.
Qed.

(** The same from an unset timer: the first fist frame starts it. *)
Lemma run_hold_from_unset (st : state) (f0 : frame) (early : list frame)
    (f_fire : frame) :
  Forall fist_frame (f0 :: early ++ [f_fire]) →
  (screenshot_start st == 0)%Q →
  ¬ (cTime f0 == 0)%Q →
  Forall (λ f, (cTime f - cTime f0 < SCREENSHOT_HOLD)%Q) early →
  (SCREENSHOT_HOLD <= cTime f_fire - cTime f0)%Q →
  ∃ st' acts,
    run d env st (f0 :: early ++ [f_fire]) = Some (st', acts) ∧
    screenshots <$> acts = 0%nat :: replicate (length early) 0%nat ++ [1%nat] ∧
    screenshot_start st' = 0%Q.
Proof.
  intros Hfists Hunset Hnonzero Hshort Hheld.
  apply Forall_cons in Hfists as [Hfirst Hrest].
  destruct (fist_starts st f0 Hfirst Hunset)
    as (st1 & acts1 & Hrun1 & H0 & Hs1).
  destruct (run_hold st1 early f_fire Hrest) as (st2 & acts2 & Hrun2 & Hacts & Hs2);
    [by rewrite Hs1 | by rewrite Hs1 | by rewrite Hs1 |].
  exists st2, (acts1 :: acts2). rewrite fmap_cons, H0, Hacts.
  simpl. rewrite Hrun1. simpl. rewrite Hrun2. by split.
Qed.

End held_fist.

(** C1 as stated fails: with the fist held throughout, frames at seconds
    1 to 6 take a second screenshot at second 6, three seconds after the
    first, without the fist ever being released. *)
Lemma held_fist_fires_twice :
  Forall fist_frame (shows 300 300 fist <$> [1; 2; 3; 4; 5; 6]%Q) ∧
  ∃ st' acts,
    run Console sample_env initial_state
      (shows 300 300 fist <$> [1; 2; 3; 4; 5; 6]%Q)
    = Some (st', acts) ∧
    screenshots <$> acts = [0; 0; 1; 0; 0; 1]%nat.
Proof.
  split.
  - repeat constructor; done.
  - eexists _, _. split; vm_compute; reflexivity.
Qed.

(** C1, amended. Over hand frames showing a closed fist throughout,
    starting with the timer unset: no screenshot is taken while the hold
    since the first frame is short of [SCREENSHOT_HOLD]; exactly one is
    taken on the first frame on which it reaches [SCREENSHOT_HOLD], and
    the timer is unset.  Firing re-arms: with the fist still held the next
    frame starts the timer again, and one more screenshot is taken once the
    hold since that frame reaches [SCREENSHOT_HOLD]. *)
Theorem held_fist_screenshots (d : driver) (env : environment) (st : state)
    (f0 : frame) (early : list frame) (f_fire f_next : frame)
    (early' : list frame) (f_fire' : frame) :
  Forall fist_frame
    ((f0 :: early ++ [f_fire]) ++ f_next :: early' ++ [f_fire']) →
  (screenshot_start st == 0)%Q →
  ¬ (cTime f0 == 0)%Q →
  ¬ (cTime f_next == 0)%Q →
  Forall (λ f, (cTime f - cTime f0 < SCREENSHOT_HOLD)%Q) early →
  (SCREENSHOT_HOLD <= cTime f_fire - cTime f0)%Q →
  Forall (λ f, (cTime f - cTime f_next < SCREENSHOT_HOLD)%Q) early' →
  (SCREENSHOT_HOLD <= cTime f_fire' - cTime f_next)%Q →
  ∃ st' acts,
    run d env st ((f0 :: early ++ [f_fire]) ++ f_next :: early' ++ [f_fire'])
    = Some (st', acts) ∧
    screenshots <$> acts
    = (0 :: replicate (length early) 0 ++ [1])%nat
      ++ (0 :: replicate (length early') 0 ++ [1])%nat ∧
    screenshot_start st' = 0%Q.
Proof.
  intros Hfists Hunset Hf0 Hnext Hshort Hheld Hshort' Hheld'.
  apply Forall_app in Hfists as [Hround Hround'].
  destruct (run_hold_from_unset d env st f0 early f_fire)
    as (st1 & acts1 & Hrun1 & Hacts1 & Hs1); [done .. |].
  destruct (run_hold_from_unset d env st1 f_next early' f_fire')
    as (st2 & acts2 & Hrun2 & Hacts2 & Hs2); [done | by rewrite Hs1 | done .. |].
  exists st2, (acts1 ++ acts2).
  rewrite fmap_app, Hacts1, Hacts2, run_app, Hrun1.
  cbn -[run]. rewrite Hrun2. by split.
Qed.

(** Fist frames at seconds 1 to 6: screenshots at seconds 3 and 6. *)
Lemma held_fist_screenshots_witness :
  ∃ st' acts,
    run Gui sample_env initial_state
      ((shows 300 300 fist 1 :: [shows 300 300 fist 2]
        ++ [shows 300 300 fist 3])
       ++ shows 300 300 fist 4 :: [shows 300 300 fist 5]
       ++ [shows 300 300 fist 6])
    = Some (st', acts) ∧
    screenshots <$> acts
    = (0 :: replicate (length [shows 300 300 fist 2]) 0 ++ [1])%nat
      ++ (0 :: replicate (length [shows 300 300 fist 5]) 0 ++ [1])%nat ∧
    screenshot_start st' = 0%Q.
Proof.
  apply held_fist_screenshots.
  - repeat constructor; done.
  - reflexivity.
  - intros Heq. discriminate Heq.
  - intros Heq. discriminate Heq.
  - repeat constructor.
  - intros Hle. discriminate Hle.
  - repeat constructor.
  - intros Hle. discriminate Hle.
Defined.

(** C2 as stated fails: a frame without a hand does not reset the fist
    timer.  Started by the fist at second 1, it is still set after the
    hand is lost at second 2, and the fist seen again at second 7/2 takes
    the screenshot although it was not held continuously. *)
Lemma no_hand_keeps_timer :
  ∃ st1 st2 acts1 acts2,
    run Console sample_env initial_state [shows 300 300 fist 1; no_hand 2]
    = Some (st1, acts1) ∧
    screenshot_start st1 = 1%Q ∧
    ¬ (screenshot_start st1 == 0)%Q ∧
    process_frame Console sample_env st1 (shows 300 300 fist (7 / 2))
    = Some (st2, acts2) ∧
    acts2 = [screenshot].
Proof.
  eexists _, _, _, _.
  split; [vm_compute; reflexivity |].
  split; [reflexivity |].
  split; [intros Heq; discriminate Heq |].
  split; vm_compute; reflexivity.
Qed.

(** C2, amended. A frame without a hand emits no action and leaves both
    hold timers as they were, set or unset.  A timer is reset on every
    frame that shows a hand without its trigger signature: the fist timer
    when the signature is not all-down, the mode-select timer when the
    five flags do not sum to 5. *)
Theorem no_hand_frame_effect (d : driver) (env : environment) (st : state)
    (f : frame) :
  (lmList f = [] →
     ∃ st',
       process_frame d env st f = Some (st', []) ∧
       screenshot_start st' = screenshot_start st ∧
       select_mode_start st' = select_mode_start st) ∧
  (∀ fingers : list Z,
     lmList f ≠ [] →
     fingers_of (lmList f) = Some fingers →
     ∃ st' acts,
       process_frame d env st f = Some (st', acts) ∧
       (fingers ≠ [0; 0; 0; 0; 0] →
          screenshot_start st' = 0%Q ∧ screenshots acts = 0%nat) ∧
       (sum fingers ≠ 5 → select_mode_start st' = 0%Q)).
Proof.
  split.
  - intros Hnone. rewrite (process_frame_no_hand _ _ _ _ Hnone).
    eexists. split; [reflexivity |]. apply end_of_frame_frame.
  - intros fingers Hhand Hfingers.
    destruct (process_frame_timers d env st f fingers Hhand Hfingers)
      as (st' & acts & Hframe & Hshot & Hselect & Hshots).
    exists st', acts. split; [done |].
    rewrite Hshot, Hselect, Hshots. split.
    + intros Hopen. unfold screenshot_trigger.
      destruct (ints_eqb fingers [0; 0; 0; 0; 0]) eqn:Heqb; [| done].
      destruct Hopen.
      destruct fingers as [| a [| b [| c [| e [| g [| ? ?]]]]]];
        cbn [ints_eqb] in Heqb;
        repeat match type of Heqb with
               | context [?x =? 0] =>
                   destruct (Z.eqb_spec x 0); [subst x | done]
               end;
        done.
    + intros Hsum. unfold mode_select_entry.
      destruct (Z.eqb_spec (sum fingers) 5); done.
Qed.

(** A running fist timer outlives a frame without a hand. *)
Lemma no_hand_frame_effect_witness :
  ∃ st',
    process_frame Gui sample_env (set_screenshot_start 1 initial_state)
      (no_hand 2)
    = Some (st', []) ∧
    screenshot_start st'
    = screenshot_start (set_screenshot_start 1 initial_state) ∧
    select_mode_start st'
    = select_mode_start (set_screenshot_start 1 initial_state).
Proof.
  apply (proj1 (no_hand_frame_effect Gui sample_env
                  (set_screenshot_start 1 initial_state) (no_hand 2))).
  reflexivity.
Defined.

(** ** Painter mode: strokes *)

(** C6 as stated fails: the first drawing frame on a lifted pen does draw.
    With the index tip at (100, 100) it calls [cv2.line] from (100, 100) to
    (100, 100), a dot of the brush's colour and thickness, so the canvas is
    no longer what it was. *)
Lemma first_stroke_draws_a_dot :
  ∃ st' acts,
    process_frame Console sample_env painter_lifted
      (shows 100 110 index_middle 5)
    = Some (st', acts) ∧
    (xp st', yp st') = (100, 100) ∧
    img_canvas st' = [Line (100, 100) (100, 100) (0, 0, 255) 10] ∧
    img_canvas st' ≠ img_canvas painter_lifted.
Proof.
  eexists _, _. split; [vm_compute; reflexivity |]. by repeat split.
Qed.

(** C6, amended. On a frame handled by the painter branch with the index
    tip 8 present at [q]: when the drawing gesture (index and middle up) is
    held and the pen is lifted, the pen is set to [q] and the zero-length
    segment from [q] to [q] is drawn in the current colour and thickness;
    when it is held and the pen is down at [p], other than (0, 0), exactly
    one segment from [p] to [q] is drawn in the current colour and
    thickness and the pen becomes [q]; when it is not held, the pen is
    lifted. *)
Theorem painter_stroke (d : driver) (env : environment) (st : state)
    (f : frame) (t i m r p : Z) (index : landmark) :
  fingers_of (lmList f) = Some [t; i; m; r; p] →
  lmList f !! 8%nat = Some index →
  mode_selecting st f = false →
  current_mode st = painter →
  ∃ st' acts,
    process_frame d env st f = Some (st', acts) ∧
    (truthy i = true → truthy m = true → (xp st, yp st) = (0, 0) →
       (xp st', yp st') = position index ∧
       img_canvas st'
       = Line (position index) (position index) (draw_color st)
           (brush_thickness st) :: img_canvas st) ∧
    (truthy i = true → truthy m = true → (xp st, yp st) ≠ (0, 0) →
       (xp st', yp st') = position index ∧
       img_canvas st'
       = Line (xp st, yp st) (position index) (draw_color st)
           (brush_thickness st) :: img_canvas st) ∧
    (truthy i && truthy m = false → (xp st', yp st') = (0, 0)).
Proof.
  intros Hfingers Hindex Hsel Hmode.
  assert (lmList f ≠ []) as Hhand by (intros Heq; by rewrite Heq in Hindex).
  destruct (process_frame_dispatch d env st f t i m r p Hhand Hfingers)
    as (v & w & st3 & acts3 & Hdispatch & shots & -> & _).
  simpl in Hdispatch. rewrite Hsel in Hdispatch.
  unfold dispatch, painter_branch in Hdispatch. simpl in Hdispatch.
  rewrite Hmode, Hindex in Hdispatch.
  pose proof (lookup_lt_Some _ _ _ Hindex) as Hlen.
  destruct (Nat.ltb_spec 8 (length (lmList f))) as [_ | ?]; [| lia].
  simpl in Hdispatch. injection Hdispatch as <- <-.
  eexists _, _. split; [reflexivity |].
  match goal with
  | |- context [end_of_frame d ?st3] =>
      destruct (end_of_frame_frame d st3) as (_ & _ & _ & _ & Hpen & Hcanvas)
  end.
  rewrite Hpen, Hcanvas. clear Hpen Hcanvas.
  unfold stroke.
  split; [| split].
  - intros -> -> [= Hx Hy]. simpl. by rewrite Hx, Hy.
  - intros -> -> Hdown. simpl.
    destruct (Z.eqb_spec (xp st) 0) as [Hx | Hx], (Z.eqb_spec (yp st) 0)
      as [Hy | Hy]; simpl; try done.
    destruct Hdown. by rewrite Hx, Hy.
  - intros ->. done.
Qed.

(** Pen down at (100, 100), drawing gesture at (110, 105): one segment
    between the two. *)
Lemma painter_stroke_witness :
  ∃ st' acts,
    process_frame Console sample_env (set_pen (100, 100) painter_lifted)
      (shows 110 115 index_middle 6)
    = Some (st', acts) ∧
    (xp st', yp st') = (110, 105) ∧
    img_canvas st' = [Line (100, 100) (110, 105) (0, 0, 255) 10].
Proof.
  destruct (painter_stroke Console sample_env
              (set_pen (100, 100) painter_lifted)
              (shows 110 115 index_middle 6) 0 1 1 0 0
              (Landmark 8 110 105))
    as (st' & acts & Hframe & _ & Hdown & _).
  - reflexivity.
  - reflexivity.
  - reflexivity.
  - reflexivity.
  - exists st', acts. split; [exact Hframe |]. by apply Hdown.
Defined.

(** ** Mode selection: hovering *)

Lemma icon_from_bound (d : driver) (positions : list (Z * Z)) (i k : nat)
    (index_pos : Z * Z) :
  icon_from d i positions index_pos = Some k →
  (i ≤ k < i + length positions)%nat.
Proof.
  revert i. induction positions as [| [x y] positions IH]; intros i; [done |].
  simpl.
  destruct (between x index_pos.1 (ICON_SIZE d)
            && between y index_pos.2 (ICON_SIZE d)).
  - intros [= ->]. lia.
  - intros Hk%IH. lia.
Qed.

Lemma hover_loop_cases (d : driver) (positions : list (Z * Z)) (i : nat)
    (index_pos : Z * Z) (now : Q) (st : state) :
  (i + length positions ≤ 4)%nat →
  match icon_from d i positions index_pos with
  | None =>
      hover_loop d i positions index_pos now st
      = Some (set_hovered_icon (-1) st)
  | Some k =>
      ∃ m,
        mode_names !! k = Some m ∧
        hover_loop d i positions index_pos now st
        = Some
            (if hovered_icon st =? Z.of_nat k then
               if Qlt_bool HOVER_HOLD (now - hover_start st)
               then hover_commit d m st
               else st
             else set_hover_start now (set_hovered_icon (Z.of_nat k) st))
  end.
Proof.
  revert i.
  induction positions as [| [x y] positions IH]; intros i Hbound; [done |].
  simpl in *.
  destruct (between x index_pos.1 (ICON_SIZE d)
            && between y index_pos.2 (ICON_SIZE d)).
  - destruct (lookup_lt_is_Some_2 mode_names i) as [m Hm]; [simpl; lia |].
    exists m. rewrite Hm. split; [done |].
    by repeat match goal with
              | |- context [if ?c then _ else _] => destruct c
              end.
  - apply IH. lia.
Qed.

(** [check_hover] by the icon under the fingertip: none clears the tracked
    icon; the tracked one commits once its dwell exceeds [HOVER_HOLD] and
    waits until then; another one is tracked from now on. *)
Lemma check_hover_cases (d : driver) (index_pos : Z * Z) (now : Q)
    (st : state) :
  match icon_at d index_pos with
  | None => check_hover d index_pos now st = Some (set_hovered_icon (-1) st)
  | Some k =>
      ∃ m,
        mode_names !! k = Some m ∧
        check_hover d index_pos now st
        = Some
            (if hovered_icon st =? Z.of_nat k then
               if Qlt_bool HOVER_HOLD (now - hover_start st)
               then hover_commit d m st
               else st
             else set_hover_start now (set_hovered_icon (Z.of_nat k) st))
  end.
Proof. apply hover_loop_cases. by destruct d. Qed.

Lemma icon_from_inside (d : driver) (positions : list (Z * Z)) (i k : nat)
    (index_pos : Z * Z) :
  icon_from d i positions index_pos = Some k →
  ∃ x y,
    positions !! (k - i)%nat = Some (x, y) ∧
    x < index_pos.1 < x + ICON_SIZE d ∧ y < index_pos.2 < y + ICON_SIZE d.
Proof.
  revert i. induction positions as [| [x y] positions IH]; intros i; [done |].
  simpl. unfold between at 1 2.
  destruct (Z.ltb_spec x index_pos.1), (Z.ltb_spec index_pos.1 (x + ICON_SIZE d)),
    (Z.ltb_spec y index_pos.2), (Z.ltb_spec index_pos.2 (y + ICON_SIZE d));
    simpl;
    try (intros [= ->]; exists x, y; rewrite Nat.sub_diag; by repeat split);
    intros Hk; pose proof (icon_from_bound _ _ _ _ _ Hk) as Hbound;
    destruct (IH _ Hk) as (x' & y' & Hlookup & Hin);
    exists x', y'; (split; [| done]);
    by replace (k - i)%nat with (S (k - S i)) by lia.
Qed.

(** The icon hit-regions of either driver are disjoint: the fingertip is
    over icon [k] exactly when it lies strictly inside the [k]-th square. *)
Lemma icon_at_region (d : driver) (index_pos : Z * Z) (k : nat) :
  icon_at d index_pos = Some k ↔
  ∃ x y,
    mode_icon_positions d !! k = Some (x, y) ∧
    x < index_pos.1 < x + ICON_SIZE d ∧ y < index_pos.2 < y + ICON_SIZE d.
Proof.
  split.
  - intros Hk. destruct (icon_from_inside _ _ _ _ _ Hk) as (x & y & Hl & Hin).
    exists x, y. by rewrite Nat.sub_0_r in Hl.
  - intros (x & y & Hlookup & Hx & Hy).
    destruct index_pos as [px py]. simpl in Hx, Hy.
    unfold icon_at.
    destruct d; destruct k as [| [| [| [| k]]]]; simpl in Hlookup;
      try done; injection Hlookup as <- <-; simpl in *; unfold between;
      repeat match goal with
             | |- context [?a <? ?b] =>
                 destruct (Z.ltb_spec a b); try lia; simpl
             end; done.
Qed.

(** C5, the commit in [main.py]. Dwelling on the tracked volume icon past
    [HOVER_HOLD] sets the mode and leaves mode selection, but
    [main.check_hover] keeps the tracked icon and its start time, where
    [GestureGui._check_hover] clears the tracked icon.  The stale tracking
    shows when mode selection is entered again with the fingertip over the
    same icon: the console driver commits and leaves mode selection on the
    very frame that entered it, with no dwell; the GUI driver starts a new
    dwell. *)
Theorem console_commit_keeps_hover_tracking :
  (∃ st',
     check_hover Console (200, 70) 14 hovering_volume = Some st' ∧
     current_mode st' = volume ∧ selecting_mode st' = false ∧
     hovered_icon st' = 1 ∧ hover_start st' = (25 / 2)%Q) ∧
  (∃ st',
     check_hover Gui (200, 70) 14 hovering_volume = Some st' ∧
     current_mode st' = volume ∧ selecting_mode st' = false ∧
     hovered_icon st' = -1) ∧
  (∃ st' acts,
     run Console sample_env initial_state
       [shows 200 80 five 10; shows 200 80 five (25 / 2);
        shows 200 80 index_only 14;
        shows 200 80 five 30; shows 200 80 five (65 / 2)]
     = Some (st', acts) ∧
     selecting_mode st' = false ∧ hovered_icon st' = 1) ∧
  (∃ st' acts,
     run Gui sample_env initial_state
       [shows 200 80 five 10; shows 200 80 five (25 / 2);
        shows 200 80 index_only 14;
        shows 200 80 five 30; shows 200 80 five (65 / 2)]
     = Some (st', acts) ∧
     selecting_mode st' = true ∧ hovered_icon st' = 1 ∧
     hover_start st' = (65 / 2)%Q).
Proof.
  split; [| split; [| split]].
  - eexists. split; [vm_compute; reflexivity |]. by repeat split.
  - eexists. split; [vm_compute; reflexivity |]. by repeat split.
  - eexists _, _. split; [vm_compute; reflexivity |]. by split.
  - eexists _, _. split; [vm_compute; reflexivity |]. by repeat split.
Qed.

(** * Part III: further properties of the code *)

(** ** The loop as a whole *)

(** X1. The frame loop raises no [IndexError]: whatever the landmark
    lists hold, of whatever lengths, every frame of a sequence is
    processed and yields its list of actions. *)
Theorem frame_loop_never_fails (d : driver) (env : environment) (st : state)
    (frames : list frame) :
  ∃ st' acts,
    run d env st frames = Some (st', acts) ∧ length acts = length frames.
Proof.
  revert st. induction frames as [| f frames IH]; intros st.
  - by eexists _, _.
  - destruct (process_frame_total d env st f) as [[st1 acts1] Hframe].
    destruct (IH st1) as (st' & acts & Hrun & Hlen).
    exists st', (acts1 :: acts). simpl. rewrite Hframe. simpl. rewrite Hrun.
    simpl. by rewrite Hlen.
Qed.

(** ** The finger signature *)

Lemma flags_sum (t i m r p : Z) :
  is_flag t → is_flag i → is_flag m → is_flag r → is_flag p →
  0 ≤ sum [t; i; m; r; p] ≤ 5 ∧
  (sum [t; i; m; r; p] = 5 ↔ [t; i; m; r; p] = [1; 1; 1; 1; 1]) ∧
  (ints_eqb [t; i; m; r; p] [0; 0; 0; 0; 0] = true ↔
   [t; i; m; r; p] = [0; 0; 0; 0; 0]).
Proof.
  unfold is_flag, sum.
  intros [-> | ->] [-> | ->] [-> | ->] [-> | ->] [-> | ->]; simpl;
    (split; [lia |]); split; split; (done || lia).
Qed.

(** X2. The signature the loop works with, from [fingersUp] or the
    all-down default without a hand, always has five entries, each 0 or 1;
    so [sum(fingers) == 5] holds exactly for the open hand, and the open
    hand and the fist exclude each other. *)
Theorem signature_five_flags (lm : list landmark) :
  ∃ fingers,
    fingers_of lm = Some fingers ∧
    length fingers = 5%nat ∧
    Forall is_flag fingers ∧
    (sum fingers = 5 ↔ fingers = [1; 1; 1; 1; 1]) ∧
    (ints_eqb fingers [0; 0; 0; 0; 0] = true → sum fingers ≠ 5).
Proof.
  destruct (fingers_of_total lm)
    as (t & i & m & r & p & -> & Ht & Hi & Hm & Hr & Hp).
  destruct (flags_sum t i m r p Ht Hi Hm Hr Hp) as (_ & Hfive & Hfist).
  eexists. split; [reflexivity |]. split; [done |].
  split; [repeat (constructor; [assumption |]); constructor |].
  split; [done |].
  intros Hzero%Hfist. injection Hzero as -> -> -> -> ->. done.
Qed.

(** ** Landmark extraction *)

(** X3. [findPosition] numbers its entries by their place in the list, so
    that indexing [lmList] by landmark identifier is sound; it returns as
    many entries as the chosen hand has landmarks, and the empty list
    when nothing was detected or the hand number is out of range. *)
Theorem findPosition_entries
    (multi_hand_landmarks : option (list (list normalized))) (handNo : nat)
    (w h : Z) :
  (∀ (i : nat) (lm : landmark),
      findPosition multi_hand_landmarks handNo w h !! i = Some lm →
      lm_id lm = Z.of_nat i) ∧
  length (findPosition multi_hand_landmarks handNo w h)
  = match multi_hand_landmarks with
    | Some hands => from_option length 0%nat (hands !! handNo)
    | None => 0%nat
    end ∧
  (multi_hand_landmarks = None ∨
   (∃ hands, multi_hand_landmarks = Some hands ∧
             (length hands ≤ handNo)%nat) →
   findPosition multi_hand_landmarks handNo w h = []).
Proof.
  unfold findPosition. split; [| split].
  - intros i lm.
    destruct multi_hand_landmarks as [[| hand0 hands] |]; [done | | done].
    destruct (_ !! handNo) as [myHand |]; [| done].
    rewrite list_lookup_imap.
    destruct (myHand !! i); [| done]. by intros [= <-].
  - destruct multi_hand_landmarks as [[| hand0 hands] |]; [done | | done].
    destruct (_ !! handNo) as [myHand |]; [| done].
    simpl. by rewrite length_imap.
  - intros [-> | (hands & -> & Hlen)]; [done |].
    destruct hands as [| hand0 hands]; [done |].
    by rewrite (lookup_ge_None_2 _ _ Hlen).
Qed.

(** The first hand of two detected ones: entry 1 is landmark 1. *)
Lemma findPosition_entries_witness :
  findPosition
    (Some [[Normalized 0 0; Normalized (1 # 2) (1 # 4)]; [Normalized 1 1]])
    0 640 480 !! 1%nat
  = Some (Landmark 1 320 120) ∧
  lm_id (Landmark 1 320 120) = Z.of_nat 1.
Proof.
  split; [reflexivity |].
  apply (proj1 (findPosition_entries
                  (Some [[Normalized 0 0; Normalized (1 # 2) (1 # 4)];
                         [Normalized 1 1]]) 0 640 480)).
  reflexivity.
Defined.

Lemma int_of_scaled (x : Q) (w : Z) :
  (0 <= x)%Q → (x < 1)%Q → 0 < w → 0 ≤ int_of (x * inject_Z w) < w.
Proof.
  destruct x as [n dpos]. unfold Qle, Qlt, int_of. simpl.
  intros Hn Hd Hw. rewrite Z.mul_1_r in *. rewrite Pos.mul_1_r.
  split.
  - apply Z.quot_pos; nia.
  - apply Z.quot_lt_upper_bound; nia.
Qed.

(** X4. When the detector's normalised coordinates lie in [0, 1), the
    pixel coordinates [findPosition] computes lie inside the frame:
    0 <= cx < w and 0 <= cy < h. *)
Theorem findPosition_in_frame (hands : list (list normalized)) (handNo : nat)
    (w h : Z) (i : nat) (lm : landmark) :
  0 < w → 0 < h →
  Forall
    (Forall
       (λ n, (0 <= nx n)%Q ∧ (nx n < 1)%Q ∧ (0 <= ny n)%Q ∧ (ny n < 1)%Q))
    hands →
  findPosition (Some hands) handNo w h !! i = Some lm →
  0 ≤ lm_cx lm < w ∧ 0 ≤ lm_cy lm < h.
Proof.
  intros Hw Hh Hnorm. unfold findPosition.
  destruct hands as [| hand0 hands]; [done |].
  destruct (_ !! handNo) as [myHand |] eqn:Hhand; [| done].
  rewrite list_lookup_imap.
  destruct (myHand !! i) as [n |] eqn:Hn; [| done].
  intros [= <-]. simpl.
  rewrite Forall_forall in Hnorm.
  pose proof (Hnorm myHand (list_elem_of_lookup_2 _ _ _ Hhand)) as Hmy.
  rewrite Forall_forall in Hmy.
  destruct (Hmy n (list_elem_of_lookup_2 _ _ _ Hn)) as (? & ? & ? & ?).
  split; by apply int_of_scaled.
Qed.

(** A landmark at three quarters of the width and half the height. *)
Lemma findPosition_in_frame_witness :
  findPosition (Some [[Normalized (3 # 4) (1 # 2)]]) 0 640 480 !! 0%nat
  = Some (Landmark 0 480 240) ∧
  0 ≤ lm_cx (Landmark 0 480 240) < 640 ∧
  0 ≤ lm_cy (Landmark 0 480 240) < 480.
Proof.
  split; [reflexivity |].
  apply (findPosition_in_frame [[Normalized (3 # 4) (1 # 2)]] 0 640 480 0).
  - lia.
  - lia.
  - repeat constructor; simpl; intros Hc; discriminate Hc.
  - reflexivity.
Defined.

(** ** The compositor on any canvas *)

(** One row: the three calls succeed on rows of one length and give
    [overlay_pixel] at each pixel. *)
Lemma overlay_row (r s : list colour) :
  length r = length s →
  ∃ a b,
    zip_same (λ p q, Some (channelwise Z.land p q)) r
      ((λ '(b, g, r), ((255 - b) `mod` 256, (255 - g) `mod` 256,
                       (255 - r) `mod` 256))
         <$> ((λ v, (v, v, v))
                <$> ((λ v, if 250 <? v then 0 else 255) <$> (gray_of <$> s))))
    = Some a ∧
    zip_same (λ p q, Some (channelwise Z.land p q)) s
      ((λ v, (v, v, v))
         <$> ((λ v, if 250 <? v then 0 else 255) <$> (gray_of <$> s)))
    = Some b ∧
    zip_same (λ p q, Some (channelwise (λ a b, Z.min 255 (a + b)) p q)) a b
    = Some (zip_with overlay_pixel r s).
Proof.
  revert s. induction r as [| p r IH]; intros [| c s] Hlen; try done.
  - by eexists _, _.
  - destruct (IH s) as (a & b & Ha & Hb & Hadd); [by injection Hlen |].
    eexists _, _. cbn -[Z.modulo Z.land Z.min gray_of].
    cbn -[Z.modulo Z.land Z.min gray_of] in Ha, Hb.
    rewrite Ha, Hb. cbn -[Z.modulo Z.land Z.min gray_of].
    split; [reflexivity |]. split; [reflexivity |].
    cbn -[Z.modulo Z.land Z.min gray_of]. rewrite Hadd.
    cbn -[Z.modulo Z.land Z.min gray_of]. reflexivity.
Qed.

(** The whole image, with the intermediate images of the three calls. *)
Lemma overlay_rows (F C : image) :
  same_shape F C →
  ∃ A B,
    bitwise_and F
      (rsub_255
         (cvtColor_GRAY2BGR
            (threshold_BINARY_INV (cvtColor_BGR2GRAY C) 250 255)))
    = Some A ∧
    bitwise_and C
      (cvtColor_GRAY2BGR
         (threshold_BINARY_INV (cvtColor_BGR2GRAY C) 250 255))
    = Some B ∧
    add A B = Some (zip_with (zip_with overlay_pixel) F C).
Proof.
  induction 1 as [| r s F C Hlen _ (A & B & HA & HB & Hadd)].
  - by eexists _, _.
  - destruct (overlay_row r s Hlen) as (a & b & Ha & Hb & Hab).
    exists (a :: A), (b :: B).
    unfold bitwise_and, add, pixelwise, rsub_255, cvtColor_GRAY2BGR,
      threshold_BINARY_INV, cvtColor_BGR2GRAY in *.
    rewrite !fmap_cons. simpl zip_same.
    rewrite Ha, Hb, Hab. simpl. rewrite HA, HB, Hadd. done.
Qed.

Lemma overlay_canvas_pixels (F C : image) :
  same_shape F C →
  overlay_canvas F C = Some (zip_with (zip_with overlay_pixel) F C).
Proof.
  intros Hshape. destruct (overlay_rows F C Hshape) as (A & B & HA & HB & Hadd).
  unfold overlay_canvas. by rewrite HA, HB.
Qed.

(** At [uint8] pixels the three calls select: the frame's pixel under a
    near-white canvas pixel, the canvas pixel otherwise. *)
Lemma overlay_pixel_selects (p c : colour) :
  uint8_pixel p → uint8_pixel c → overlay_pixel p c = composite_pixel p c.
Proof.
  destruct p as [[pb pg] pr], c as [[cb cg] cr].
  intros (Hpb & Hpg & Hpr) (Hcb & Hcg & Hcr).
  unfold overlay_pixel, composite_pixel, mask_inv_at, uint8 in *.
  simpl in Hpb, Hpg, Hpr, Hcb, Hcg, Hcr.
  destruct (250 <? gray_of (cb, cg, cr)); cbn -[Z.land Z.min].
  - rewrite !land_255, !Z.land_0_r, !Z.add_0_r, !Z.min_r by (done || lia).
    done.
  - rewrite !land_255, !Z.land_0_r, !Z.add_0_l, !Z.min_r by (done || lia).
    done.
Qed.

Lemma same_shape_of (h w : nat) (F C : image) :
  has_shape h w F → has_shape h w C → same_shape F C.
Proof.
  intros [HF HrF] [HC HrC]. rewrite <- HC in HF. clear HC.
  revert C HF HrC. induction F as [| r F IH]; intros [| s C] HF HrC;
    try done; [constructor |].
  apply Forall_cons in HrF as [Hr HrF]. apply Forall_cons in HrC as [Hs HrC].
  constructor; [congruence |]. apply IH; [done | by injection HF | done].
Qed.

(** X5. On a frame and a canvas of one shape with [uint8] pixels, the
    composite shows at every pixel the canvas where its gray value is at
    most 250 and the frame where it is above: an opaque mask, with no
    blending of the two. *)
Theorem overlay_canvas_masks (h w : nat) (F C : image) :
  has_shape h w F → has_shape h w C →
  uint8_image F → uint8_image C →
  overlay_canvas F C = Some (zip_with (zip_with composite_pixel) F C).
Proof.
  intros HF HC HpF HpC.
  rewrite (overlay_canvas_pixels F C (same_shape_of h w F C HF HC)).
  f_equal. clear HF HC. revert C HpC.
  induction HpF as [| r F Hr _ IH]; intros [| s C] HpC; try done.
  apply Forall_cons in HpC as [Hs HpC]. simpl. f_equal; [| by apply IH].
  clear IH HpC. revert s Hs.
  induction Hr as [| p r Hp _ IH]; intros [| c s] Hs; try done.
  apply Forall_cons in Hs as [Hc Hs]. simpl.
  f_equal; [by apply overlay_pixel_selects | by apply IH].
Qed.

(** A red stroke pixel covers the frame; white and near-white canvas
    pixels show it. *)
Lemma overlay_canvas_masks_witness :
  overlay_canvas [[(12, 200, 255); (1, 2, 3)]; [(9, 9, 9); (90, 7, 31)]]
    [[(0, 0, 255); (255, 255, 255)]; [(251, 251, 251); (250, 250, 250)]]
  = Some [[(0, 0, 255); (1, 2, 3)]; [(9, 9, 9); (250, 250, 250)]].
Proof.
  apply (overlay_canvas_masks 2 2).
  - split; [reflexivity |]. repeat constructor.
  - split; [reflexivity |]. repeat constructor.
  - repeat constructor; simpl; lia.
  - repeat constructor; simpl; lia.
Defined.

(** ** Landmark distance, continued *)

Lemma hypot_zero (dx dy : Z) :
  handDetector.hypot dx dy = 0%R ↔ dx = 0 ∧ dy = 0.
Proof.
  unfold handDetector.hypot. split.
  - intros Hzero. apply sqrt_eq_0 in Hzero; [| apply IZR_squares_nonneg].
    apply eq_IZR in Hzero. nia.
  - intros [-> ->]. simpl. apply sqrt_0.
Qed.

Lemma hypot_opp (dx dy : Z) :
  handDetector.hypot (- dx) (- dy) = handDetector.hypot dx dy.
Proof. unfold handDetector.hypot. do 2 f_equal. ring. Qed.

(** X7. The distance does not depend on the order of the two landmarks:
    [findDistance(p1, p2)] and [findDistance(p2, p1)] return the same
    length and the same midpoint. *)
Theorem findDistance_symmetric (p1 p2 : nat) (lm : list landmark) :
  fst <$> handDetector.findDistance p1 p2 lm
  = fst <$> handDetector.findDistance p2 p1 lm ∧
  drop 4 ∘ snd <$> handDetector.findDistance p1 p2 lm
  = drop 4 ∘ snd <$> handDetector.findDistance p2 p1 lm.
Proof.
  unfold handDetector.findDistance. rewrite (Nat.max_comm p2 p1).
  destruct (length lm <=? p1 `max` p2)%nat; [done |].
  destruct (lm !! p1) as [a |], (lm !! p2) as [b |]; try done.
  simpl. split.
  - f_equal. rewrite <- hypot_opp. f_equal; ring.
  - by rewrite (Z.add_comm (lm_cx b)), (Z.add_comm (lm_cy b)).
Qed.

(** X8. A length of 0 does not tell an absent landmark from a real
    contact: [findDistance] returns length 0 exactly when the list is too
    short for one of the two landmarks or both landmarks are present at
    the same pixel. *)
Theorem findDistance_zero_ambiguous (p1 p2 : nat) (lm : list landmark) :
  (∃ info, handDetector.findDistance p1 p2 lm = Some (0%R, info)) ↔
  (length lm ≤ p1 `max` p2)%nat ∨
  ∃ a b, lm !! p1 = Some a ∧ lm !! p2 = Some b ∧ position a = position b.
Proof.
  destruct (decide (length lm ≤ p1 `max` p2)%nat) as [Hshort | Hlong].
  - split; [by left |]. intros _. eexists.
    unfold handDetector.findDistance.
    by destruct (Nat.leb_spec (length lm) (p1 `max` p2)); [| lia].
  - destruct (findDistance_present p1 p2 lm) as (a & b & Ha & Hb & ->);
      [lia |].
    unfold position. split.
    + intros [info [= Hzero _]]. right. exists a, b.
      apply hypot_zero in Hzero. do 2 (split; [done |]).
      f_equal; lia.
    + intros [? | (a' & b' & Ha' & Hb' & [= Hx Hy])]; [lia |].
      assert (a' = a) as -> by congruence.
      assert (b' = b) as -> by congruence.
      eexists. do 2 f_equal.
      apply hypot_zero. lia.
Qed.

(** ** Frames, branch by branch *)

(** A frame with a hand: its signature, the state the dispatch finds, the
    dispatch, and the screenshot of the fist timer, if any. *)
Lemma process_frame_inv (d : driver) (env : environment) (st : state)
    (f : frame) :
  lmList f ≠ [] →
  ∃ t i m r p v w st3 acts3 shots,
    fingers_of (lmList f) = Some [t; i; m; r; p] ∧
    dispatch d env f [t; i; m; r; p]
      (set_selecting_mode (mode_selecting st f)
         (set_select_mode_start v (set_screenshot_start w st)))
    = Some (st3, acts3) ∧
    process_frame d env st f = Some (end_of_frame d st3, shots ++ acts3) ∧
    (shots = [] ∨ shots = [screenshot]).
Proof.
  intros Hhand.
  destruct (fingers_of_total (lmList f)) as (t & i & m & r & p & Hf & _).
  exists t, i, m, r, p.
  rewrite (process_frame_hand _ _ _ _ _ Hhand Hf).
  rewrite (mode_selecting_hand _ _ _ Hhand Hf).
  destruct (before_dispatch_state [t; i; m; r; p] (cTime f) st)
    as (v & w & ->).
  exists v, w.
  match goal with
  | |- context [dispatch d env f _ ?st2] =>
      destruct (dispatch_frame d env f t i m r p st2)
        as (st3 & acts3 & Hdispatch & _)
  end.
  exists st3, acts3. eexists. rewrite Hdispatch.
  split; [exact Hf |]. do 2 (split; [reflexivity |]).
  unfold screenshot_trigger.
  repeat match goal with
         | |- context [if ?c then _ else _] => destruct c
         end; simpl; tauto.
Qed.

(** What each branch of the dispatch does to the state and which actions
    it emits. *)
Lemma dispatch_inv (d : driver) (env : environment) (f : frame)
    (t i m r p : Z) (st st' : state) (acts : list action) :
  dispatch d env f [t; i; m; r; p] st = Some (st', acts) →
  (selecting_mode st = true ∧ acts = [] ∧
   ((length (lmList f) ≤ 8)%nat ∧ st' = st ∨
    ∃ index,
      lmList f !! 8%nat = Some index ∧
      check_hover d (position index) (hover_time f) st = Some st')) ∨
  (selecting_mode st = false ∧ current_mode st = mouse ∧
   ((length (lmList f) ≤ 12)%nat ∧ st' = st ∧ acts = [] ∨
    ∃ index move,
      lmList f !! 8%nat = Some index ∧
      st' = (click_gestures i m st).1 ∧
      acts = move ++ (click_gestures i m st).2 ∧
      move
      = if truthy i && negb (truthy m || truthy r || truthy p) then
          [moveTo
             (np_interp (IZR (lm_cx index)) (0%R, IZR CAM_WIDTH)
                (0%R, IZR (screen_width env)))
             (np_interp (IZR (lm_cy index)) (0%R, IZR CAM_HEIGHT)
                (0%R, IZR (screen_height env)))]
        else [])) ∨
  (selecting_mode st = false ∧ current_mode st = volume ∧ st' = st ∧
   (acts = [] ∨
    ∃ thumb index,
      lmList f !! 4%nat = Some thumb ∧ lmList f !! 8%nat = Some index ∧
      acts
      = [SetMasterVolumeLevel
           (np_interp
              (handDetector.hypot (lm_cx index - lm_cx thumb)
                 (lm_cy index - lm_cy thumb))
              (20%R, 200%R) (vol_min env, vol_max env))])) ∨
  (selecting_mode st = false ∧ current_mode st = painter ∧ acts = [] ∧
   ((length (lmList f) ≤ 8)%nat ∧ st' = st ∨
    ∃ index,
      lmList f !! 8%nat = Some index ∧
      st'
      = stroke i m (position index)
          (if truthy i && negb (truthy m || truthy r || truthy p)
           then select_tool_at d (position index) st else st))) ∨
  (selecting_mode st = false ∧ current_mode st = scroll ∧ st' = st ∧
   scroll_branch [t; i; m; r; p] = Some acts).
Proof.
  unfold dispatch. intros Hd. destruct (selecting_mode st) eqn:Hsel.
  - left. do 1 (split; [done |]).
    destruct (Nat.ltb_spec 8 (length (lmList f))) as [Hlen | Hlen].
    + destruct (lookup_lt_is_Some_2 (lmList f) 8 Hlen) as [index Hindex].
      rewrite Hindex in Hd. simpl in Hd.
      destruct (check_hover d (position index) (hover_time f) st)
        as [st1 |] eqn:Hhover; [| done].
      injection Hd as <- <-. split; [done |]. right. by exists index.
    + injection Hd as <- <-. split; [done |]. left. split; [lia | done].
  - right. destruct (current_mode st) eqn:Hmode.
    + left. do 2 (split; [done |]).
      destruct (Nat.ltb_spec 12 (length (lmList f))) as [Hlen | Hlen].
      * revert Hd. unfold mouse_branch.
        destruct (lookup_lt_is_Some_2 (lmList f) 8) as [index ->]; [lia |].
        destruct (lookup_lt_is_Some_2 (lmList f) 12) as [mid ->]; [lia |].
        simpl. destruct (click_gestures i m st) as [st1 cl].
        intros [= <- <-]. right. eexists index, _.
        split; [done |]. split; [done |]. split; [reflexivity |].
        simpl. by rewrite !orb_false_r, !orb_assoc.
      * injection Hd as <- <-. left. split; [lia | done].
    + right. left. do 2 (split; [done |]).
      destruct (Nat.ltb_spec 8 (length (lmList f))) as [Hlen | Hlen];
        simpl in Hd.
      * destruct (volume_available env); simpl in Hd.
        -- destruct (volume_branch_frame env (lmList f) Hlen)
             as (thumb & index & Hthumb & Hindex & Hbranch).
           rewrite Hbranch in Hd. injection Hd as <- <-.
           split; [done |]. right. by exists thumb, index.
        -- injection Hd as <- <-. split; [done | by left].
      * injection Hd as <- <-. split; [done | by left].
    + do 2 right. left. do 2 (split; [done |]).
      revert Hd. unfold painter_branch.
      destruct (Nat.ltb_spec 8 (length (lmList f))) as [Hlen | Hlen].
      * destruct (lookup_lt_is_Some_2 (lmList f) 8 Hlen) as [index ->].
        simpl. intros [= <- <-]. split; [done |]. right. exists index.
        split; [done |]. by rewrite !orb_false_r, !orb_assoc.
      * simpl. intros [= <- <-]. split; [done |]. left. split; [lia | done].
    + do 3 right. do 2 (split; [done |]).
      destruct (scroll_branch [t; i; m; r; p]) as [acts' |]; [| done].
      by injection Hd as <- <-.
Qed.

Lemma moves_app (a b : list action) : moves (a ++ b) = moves a ++ moves b.
Proof. apply omap_app. Qed.

Lemma moves_moveTo (sx sy : R) : moves [moveTo sx sy] = [(sx, sy)].
Proof. reflexivity. Qed.

Lemma scrolls_app (a b : list action) :
  scrolls (a ++ b) = scrolls a ++ scrolls b.
Proof. apply omap_app. Qed.

Lemma click_gestures_actions (f1 f2 : Z) (st : state) :
  (click_gestures f1 f2 st).2 = [] ∨
  ∃ b, (click_gestures f1 f2 st).2 = [click b].
Proof.
  unfold click_gestures.
  repeat match goal with
         | |- context [if ?c then _ else _] => destruct c
         end; simpl; eauto.
Qed.

Lemma scroll_branch_actions (t i m r p : Z) (acts : list action) :
  scroll_branch [t; i; m; r; p] = Some acts →
  acts
  = if truthy i && truthy m then
      if truthy r then [scroll_by (- SCROLL_AMOUNT)]
      else [scroll_by SCROLL_AMOUNT]
    else [].
Proof.
  unfold scroll_branch. simpl.
  destruct (truthy i), (truthy m), (truthy r); simpl; by intros [= <-].
Qed.

(** [np.interp] stays between the table's values. *)
Lemma np_interp_range (x x0 x1 f0 f1 : R) :
  (x0 < x1)%R → (f0 <= f1)%R →
  (f0 <= np_interp x (x0, x1) (f0, f1) <= f1)%R.
Proof.
  intros Hx Hf. unfold np_interp.
  destruct (Rlt_dec x1 x) as [Hr | Hr]; [lra |].
  destruct (Rlt_dec x x0) as [Hl | Hl]; [lra |].
  destruct (Req_dec_T x x1) as [He | He]; [lra |].
  destruct (Req_dec_T x0 x) as [He0 | He0]; [lra |].
  assert (0 < / (x1 - x0))%R as Hinv by (apply Rinv_0_lt_compat; lra).
  assert ((x1 - x0) * / (x1 - x0) = 1)%R as Hone by (apply Rinv_r; lra).
  unfold Rdiv.
  set (k := (/ (x1 - x0))%R) in *.
  assert (0 <= k * (x - x0) <= 1)%R as [Hk0 Hk1] by nra.
  replace ((f1 - f0) * k * (x - x0))%R with ((f1 - f0) * (k * (x - x0)))%R
    by ring.
  nra.
Qed.

(** ** What a frame can emit *)

(** X9. The pointer is never sent off the screen: in every frame, of
    either driver and in every state, at most one pointer move is
    emitted, and its target lies within [0, screen_width] by
    [0, screen_height], wherever the fingertip is. *)
Theorem pointer_stays_on_screen (d : driver) (env : environment)
    (st : state) (f : frame) :
  0 ≤ screen_width env → 0 ≤ screen_height env →
  ∃ st' acts,
    process_frame d env st f = Some (st', acts) ∧
    (length (moves acts) ≤ 1)%nat ∧
    Forall
      (λ target : R * R,
         (0 <= target.1 <= IZR (screen_width env))%R ∧
         (0 <= target.2 <= IZR (screen_height env))%R)
      (moves acts).
Proof.
  intros Hw Hh.
  destruct (decide (lmList f = [])) as [Hnone | Hhand].
  { rewrite (process_frame_no_hand _ _ _ _ Hnone). eexists _, _.
    split; [reflexivity |]. simpl. split; [lia | constructor]. }
  destruct (process_frame_inv d env st f Hhand)
    as (t & i & m & r & p & v & w & st3 & acts3 & shots & _ & Hd & -> & Hs).
  eexists _, _. split; [reflexivity |].
  assert (moves shots = []) as Hshots by (by destruct Hs as [-> | ->]).
  rewrite moves_app, Hshots. simpl.
  apply dispatch_inv in Hd
    as [(_ & -> & _)
       | [(_ & _ & [(_ & _ & ->) | (index & move & _ & _ & -> & Hmove)])
         | [(_ & _ & _ & [-> | (? & ? & _ & _ & ->)])
           | [(_ & _ & -> & _) | (_ & _ & _ & Hscroll)]]]];
    try (simpl; split; [lia | constructor]).
  - rewrite moves_app.
    assert (moves (click_gestures i m
                     (set_selecting_mode (mode_selecting st f)
                        (set_select_mode_start v
                           (set_screenshot_start w st)))).2 = [])
      as -> by (by destruct (click_gestures_actions i m
                               (set_selecting_mode (mode_selecting st f)
                                  (set_select_mode_start v
                                     (set_screenshot_start w st))))
                  as [-> | [b ->]]).
    rewrite app_nil_r, Hmove.
    destruct (truthy i && negb (truthy m || truthy r || truthy p)); simpl;
      (split; [lia |]); [| constructor].
    constructor; [| constructor]. simpl.
    split; apply np_interp_range;
      try (apply IZR_lt; done); apply IZR_le; done.
  - apply scroll_branch_actions in Hscroll. rewrite Hscroll.
    destruct (truthy i && truthy m), (truthy r); simpl;
      (split; [lia | constructor]).
Qed.

(** A fingertip outside the camera frame, at (700, -30): the pointer is
    sent to the screen's edge. *)
Lemma pointer_stays_on_screen_witness :
  ∃ st' acts,
    process_frame Console sample_env initial_state
      (Frame (<[8%nat := Landmark 8 700 (-30)]> (hand 300 300 index_only)) 3 3)
    = Some (st', acts) ∧
    (length (moves acts) ≤ 1)%nat ∧
    Forall
      (λ target : R * R,
         (0 <= target.1 <= IZR (screen_width sample_env))%R ∧
         (0 <= target.2 <= IZR (screen_height sample_env))%R)
      (moves acts).
Proof.
  apply pointer_stays_on_screen; simpl; lia.
Defined.

(** X10. In the mouse branch the pointer follows the index fingertip:
    with the index up and middle, ring and pinky down (the thumb does not
    matter) and the fingertip inside the camera frame, the frame emits one
    pointer move to the fingertip's position scaled from 640 by 480 to the
    screen; with any other signature it emits none. *)
Theorem cursor_follows_index (d : driver) (env : environment) (st : state)
    (f : frame) (t i m r p : Z) (index : landmark) :
  fingers_of (lmList f) = Some [t; i; m; r; p] →
  (12 < length (lmList f))%nat →
  lmList f !! 8%nat = Some index →
  mode_selecting st f = false →
  current_mode st = mouse →
  ∃ st' acts,
    process_frame d env st f = Some (st', acts) ∧
    (truthy i = true → truthy m = false → truthy r = false →
     truthy p = false →
     0 ≤ lm_cx index ≤ CAM_WIDTH → 0 ≤ lm_cy index ≤ CAM_HEIGHT →
     moves acts
     = [((IZR (lm_cx index) / 640 * IZR (screen_width env))%R,
         (IZR (lm_cy index) / 480 * IZR (screen_height env))%R)]) ∧
    (truthy i && negb (truthy m || truthy r || truthy p) = false →
     moves acts = []).
Proof.
  intros Hf Hlen Hindex Hsel Hmode.
  assert (lmList f ≠ []) as Hhand by (intros Heq; by rewrite Heq in Hindex).
  destruct (process_frame_inv d env st f Hhand)
    as (t' & i' & m' & r' & p' & v & w & st3 & acts3 & shots & Hf' & Hd
        & -> & Hs).
  rewrite Hf in Hf'. injection Hf' as <- <- <- <- <-.
  eexists _, _. split; [reflexivity |].
  assert (moves shots = []) as Hshots by (by destruct Hs as [-> | ->]).
  rewrite moves_app, Hshots. simpl.
  rewrite Hsel in Hd.
  apply dispatch_inv in Hd
    as [(Hsel' & _)
       | [(_ & _ & [(Hshort & _) | (index' & move & Hi' & _ & -> & Hmove)])
         | [(_ & Hm' & _) | [(_ & Hm' & _) | (_ & Hm' & _)]]]];
    try (simpl in *; done || lia || congruence).
  rewrite Hindex in Hi'. injection Hi' as <-.
  rewrite moves_app.
  match goal with
  | |- context [click_gestures i m ?st2] =>
      assert (moves (click_gestures i m st2).2 = []) as ->
        by (by destruct (click_gestures_actions i m st2) as [-> | [b ->]])
  end.
  rewrite app_nil_r, Hmove. split.
  - intros -> -> -> -> Hx Hy. cbn [andb orb negb].
    destruct (np_interp_clamped (IZR (lm_cx index)) 0 (IZR CAM_WIDTH) 0
                (IZR (screen_width env))) as (_ & _ & Hsx);
      [apply IZR_lt; done |].
    destruct (np_interp_clamped (IZR (lm_cy index)) 0 (IZR CAM_HEIGHT) 0
                (IZR (screen_height env))) as (_ & _ & Hsy);
      [apply IZR_lt; done |].
    rewrite Hsx, Hsy by (split; apply IZR_le; lia).
    unfold CAM_WIDTH, CAM_HEIGHT. rewrite moves_moveTo.
    do 2 f_equal; lra.
  - by intros ->.
Qed.

(** The index alone, fingertip at (320, 240): the middle of the screen. *)
Lemma cursor_follows_index_witness :
  ∃ st' acts,
    process_frame Gui sample_env initial_state
      (shows 320 250 index_only 3)
    = Some (st', acts) ∧
    moves acts
    = [((IZR 320 / 640 * IZR (screen_width sample_env))%R,
        (IZR 240 / 480 * IZR (screen_height sample_env))%R)].
Proof.
  destruct (cursor_follows_index Gui sample_env initial_state
              (shows 320 250 index_only 3) 0 1 0 0 0 (Landmark 8 320 240))
    as (st' & acts & Hframe & Hmove & _).
  - reflexivity.
  - simpl. lia.
  - reflexivity.
  - reflexivity.
  - reflexivity.
  - exists st', acts. split; [exact Hframe |].
    apply Hmove; try reflexivity; simpl; unfold CAM_WIDTH, CAM_HEIGHT; lia.
Defined.

(** X11. The volume level stays in the device's range: in every frame at
    most one level is set, and it lies between [vol_min] and [vol_max],
    whatever the distance of thumb and index. *)
Theorem volume_stays_in_range (d : driver) (env : environment) (st : state)
    (f : frame) :
  (vol_min env <= vol_max env)%R →
  ∃ st' acts,
    process_frame d env st f = Some (st', acts) ∧
    (length (volume_levels acts) ≤ 1)%nat ∧
    Forall (λ vol, (vol_min env <= vol <= vol_max env)%R)
      (volume_levels acts).
Proof.
  intros Hrange.
  destruct (decide (lmList f = [])) as [Hnone | Hhand].
  { rewrite (process_frame_no_hand _ _ _ _ Hnone). eexists _, _.
    split; [reflexivity |]. simpl. split; [lia | constructor]. }
  destruct (process_frame_inv d env st f Hhand)
    as (t & i & m & r & p & v & w & st3 & acts3 & shots & _ & Hd & -> & Hs).
  eexists _, _. split; [reflexivity |].
  assert (volume_levels shots = []) as Hshots
      by (by destruct Hs as [-> | ->]).
  rewrite volume_levels_app, Hshots. simpl.
  apply dispatch_inv in Hd
    as [(_ & -> & _)
       | [(_ & _ & [(_ & _ & ->) | (index & move & _ & _ & -> & Hmove)])
         | [(_ & _ & _ & [-> | (? & ? & _ & _ & ->)])
           | [(_ & _ & -> & _) | (_ & _ & _ & Hscroll)]]]];
    try (simpl; split; [lia | by constructor]).
  - rewrite volume_levels_app, Hmove.
    match goal with
    | |- context [click_gestures i m ?st2] =>
        destruct (click_gestures_actions i m st2) as [-> | [b ->]]
    end;
      destruct (truthy i && negb (truthy m || truthy r || truthy p)); simpl;
      (split; [lia | constructor]).
  - simpl. split; [lia |]. constructor; [| constructor].
    apply np_interp_range; [lra | done].
  - apply scroll_branch_actions in Hscroll. rewrite Hscroll.
    destruct (truthy i && truthy m), (truthy r); simpl;
      (split; [lia | constructor]).
Qed.

(** Volume mode, thumb and index 300 pixels apart. *)
Lemma volume_stays_in_range_witness :
  ∃ st' acts,
    process_frame Console audio_env (set_current_mode volume initial_state)
      (Frame (<[8%nat := Landmark 8 600 300]> (hand 300 300 fist)) 10 10)
    = Some (st', acts) ∧
    (length (volume_levels acts) ≤ 1)%nat ∧
    Forall (λ vol, (vol_min audio_env <= vol <= vol_max audio_env)%R)
      (volume_levels acts).
Proof.
  apply volume_stays_in_range. simpl. lra.
Defined.

(** X12. Scrolling: in the scroll branch a frame with index and middle up
    scrolls by +40 when the ring finger is down and by -40 when it is up,
    once per frame for as long as the signature is shown, and does not
    scroll with index or middle down; outside the scroll branch no frame
    scrolls. *)
Theorem scroll_gestures (d : driver) (env : environment) (st : state)
    (f : frame) (t i m r p : Z) :
  lmList f ≠ [] →
  fingers_of (lmList f) = Some [t; i; m; r; p] →
  ∃ st' acts,
    process_frame d env st f = Some (st', acts) ∧
    (mode_selecting st f = false → current_mode st = scroll →
     scrolls acts
     = if truthy i && truthy m then
         if truthy r then [- SCROLL_AMOUNT] else [SCROLL_AMOUNT]
       else []) ∧
    (mode_selecting st f = true ∨ current_mode st ≠ scroll →
     scrolls acts = []).
Proof.
  intros Hhand Hf.
  destruct (process_frame_inv d env st f Hhand)
    as (t' & i' & m' & r' & p' & v & w & st3 & acts3 & shots & Hf' & Hd
        & -> & Hs).
  rewrite Hf in Hf'. injection Hf' as <- <- <- <- <-.
  eexists _, _. split; [reflexivity |].
  assert (scrolls shots = []) as Hshots by (by destruct Hs as [-> | ->]).
  rewrite scrolls_app, Hshots. simpl.
  apply dispatch_inv in Hd
    as [(Hsel & -> & _)
       | [(Hsel & Hmode & [(_ & _ & ->) | (index & move & _ & _ & -> & Hmove)])
         | [(Hsel & Hmode & _ & [-> | (? & ? & _ & _ & ->)])
           | [(Hsel & Hmode & -> & _) | (Hsel & Hmode & _ & Hscroll)]]]];
    simpl in Hsel; try simpl in Hmode;
    try (split; [intros; congruence | done]).
  - split; [intros; congruence |]. intros _.
    rewrite scrolls_app, Hmove.
    match goal with
    | |- context [click_gestures i m ?st2] =>
        destruct (click_gestures_actions i m st2) as [-> | [b ->]]
    end;
      by destruct (truthy i && negb (truthy m || truthy r || truthy p)).
  - apply scroll_branch_actions in Hscroll. rewrite Hscroll. split.
    + intros _ _. by destruct (truthy i && truthy m), (truthy r).
    + intros [? | ?]; congruence.
Qed.

(** Scroll mode, index, middle and ring up: one scroll by -40. *)
Lemma scroll_gestures_witness :
  ∃ st' acts,
    process_frame Console sample_env (set_current_mode scroll initial_state)
      (shows 300 300 [false; true; true; true; false] 4)
    = Some (st', acts) ∧
    scrolls acts = [-40].
Proof.
  destruct (scroll_gestures Console sample_env
              (set_current_mode scroll initial_state)
              (shows 300 300 [false; true; true; true; false] 4) 0 1 1 1 0)
    as (st' & acts & Hframe & Hscroll & _).
  - done.
  - reflexivity.
  - exists st', acts. split; [exact Hframe |]. by apply Hscroll.
Defined.

(** X13. A frame emits only what its branch is for: every action is a
    screenshot of the fist timer or, with mode selection off at the
    dispatch, an action of the current mode (pointer moves and clicks in
    mouse mode, volume levels in volume mode, scrolling in scroll mode,
    nothing in painter mode); and no frame takes two screenshots or clicks
    twice. *)
Theorem actions_follow_mode (d : driver) (env : environment) (st : state)
    (f : frame) :
  ∃ st' acts,
    process_frame d env st f = Some (st', acts) ∧
    Forall
      (λ a, a = screenshot ∨
            mode_selecting st f = false ∧ belongs (current_mode st) a)
      acts ∧
    (screenshots acts ≤ 1)%nat ∧ (length (clicks acts) ≤ 1)%nat.
Proof.
  destruct (decide (lmList f = [])) as [Hnone | Hhand].
  { rewrite (process_frame_no_hand _ _ _ _ Hnone). eexists _, _.
    split; [reflexivity |]. split; [constructor | by compute; lia]. }
  destruct (process_frame_inv d env st f Hhand)
    as (t & i & m & r & p & v & w & st3 & acts3 & shots & _ & Hd & -> & Hs).
  eexists _, _. split; [reflexivity |].
  rewrite Forall_app, screenshots_app, clicks_app, length_app.
  assert (Forall
            (λ a, a = screenshot ∨
                  mode_selecting st f = false ∧ belongs (current_mode st) a)
            shots ∧
          (screenshots shots ≤ 1)%nat ∧ length (clicks shots) = 0%nat)
    as (Hshots & Hone & ->).
  { destruct Hs as [-> | ->];
      (split; [repeat constructor; by left
              | split; [by compute; lia | done]]). }
  cut (Forall
         (λ a, mode_selecting st f = false ∧ belongs (current_mode st) a)
         acts3 ∧
       screenshots acts3 = 0%nat ∧ (length (clicks acts3) ≤ 1)%nat).
  { intros (Hacts & -> & Hclicks). split; [| lia]. split; [done |].
    eapply Forall_impl; [exact Hacts |]. simpl. tauto. }
  clear Hshots Hone Hs shots.
  apply dispatch_inv in Hd
    as [(Hsel & -> & _)
       | [(Hsel & Hmode & [(_ & _ & ->) | (index & move & _ & _ & -> & Hmove)])
         | [(Hsel & Hmode & _ & [-> | (? & ? & _ & _ & ->)])
           | [(Hsel & Hmode & -> & _) | (Hsel & Hmode & _ & Hscroll)]]]];
    simpl in Hsel; try simpl in Hmode;
    try (simpl; split; [by constructor | split; [done | lia]]).
  - rewrite Hmode, Hmove.
    match goal with
    | |- context [click_gestures i m ?st2] =>
        destruct (click_gestures_actions i m st2) as [-> | [b ->]]
    end;
      destruct (truthy i && negb (truthy m || truthy r || truthy p)); simpl;
      (split; [repeat constructor; done | split; [done | lia]]).
  - rewrite Hmode. simpl.
    split; [repeat constructor; done | split; [done | lia]].
  - apply scroll_branch_actions in Hscroll. rewrite Hscroll, Hmode.
    destruct (truthy i && truthy m), (truthy r); simpl;
      (split; [repeat constructor; done | split; [done | lia]]).
Qed.

(** ** Mode selection, frame by frame *)

Lemma click_gestures_selection (f1 f2 : Z) (st : state) :
  same_selection st (click_gestures f1 f2 st).1 ∧
  same_painter st (click_gestures f1 f2 st).1.
Proof.
  unfold click_gestures.
  repeat match goal with
         | |- context [if ?c then _ else _] => destruct c
         end; done.
Qed.

Lemma select_tool_at_selection (d : driver) (c : Z * Z) (st : state) :
  same_selection st (select_tool_at d c st) ∧
  (xp (select_tool_at d c st), yp (select_tool_at d c st)) = (xp st, yp st) ∧
  img_canvas (select_tool_at d c st) = img_canvas st.
Proof.
  unfold select_tool_at. generalize (painter_options d).
  intros options. revert st.
  induction options as [| [name [x y]] options IH]; intros st; [done |].
  simpl.
  destruct (between x c.1 (ICON_SIZE d) && between y c.2 (ICON_SIZE d));
    [| apply IH].
  destruct (IH (select_tool name st)) as ((H1 & H2 & H3 & H4) & H5 & H6).
  unfold same_selection. rewrite H1, H2, H3, H4, H5, H6.
  by destruct name.
Qed.

Lemma stroke_selection (f1 f2 : Z) (c : Z * Z) (st : state) :
  same_selection st (stroke f1 f2 c st).
Proof.
  unfold stroke.
  repeat match goal with
         | |- context [if ?c then _ else _] => destruct c
         end; done.
Qed.

(** What [check_hover] can return. *)
Lemma check_hover_inv (d : driver) (index_pos : Z * Z) (now : Q)
    (st st' : state) :
  check_hover d index_pos now st = Some st' →
  match icon_at d index_pos with
  | None => st' = set_hovered_icon (-1) st
  | Some k =>
      (k < 4)%nat ∧
      ∃ m,
        mode_names !! k = Some m ∧
        st'
        = if hovered_icon st =? Z.of_nat k then
            if Qlt_bool HOVER_HOLD (now - hover_start st)
            then hover_commit d m st
            else st
          else set_hover_start now (set_hovered_icon (Z.of_nat k) st)
  end.
Proof.
  intros Hhover. pose proof (check_hover_cases d index_pos now st) as Hcases.
  destruct (icon_at d index_pos) as [k |] eqn:Hicon.
  - destruct Hcases as (m & Hm & Heq). split.
    + apply icon_from_bound in Hicon. destruct d; simpl in Hicon; lia.
    + exists m. split; [done | congruence].
  - congruence.
Qed.

Lemma check_hover_painter (d : driver) (index_pos : Z * Z) (now : Q)
    (st st' : state) :
  check_hover d index_pos now st = Some st' → same_painter st st'.
Proof.
  intros Hhover%check_hover_inv.
  destruct (icon_at d index_pos) as [k |]; [| by subst].
  destruct Hhover as (_ & m & _ & ->).
  repeat match goal with
         | |- context [if ?c then _ else _] => destruct c
         end; by destruct d.
Qed.

(** Outside mode selection the dispatch leaves mode, mode selection and
    hover tracking alone. *)
Lemma dispatch_selection (d : driver) (env : environment) (f : frame)
    (t i m r p : Z) (st st' : state) (acts : list action) :
  selecting_mode st = false →
  dispatch d env f [t; i; m; r; p] st = Some (st', acts) →
  same_selection st st'.
Proof.
  intros Hsel Hd.
  apply dispatch_inv in Hd
    as [(Hsel' & _)
       | [(_ & _ & [(_ & -> & _) | (index & move & _ & -> & _)])
         | [(_ & _ & -> & _)
           | [(_ & _ & _ & [(_ & ->) | (index & _ & ->)])
             | (_ & _ & -> & _)]]]];
    try done; try congruence.
  - apply click_gestures_selection.
  - destruct (truthy i && negb (truthy m || truthy r || truthy p)).
    + destruct (stroke_selection i m (position index)
                  (select_tool_at d (position index) st))
        as (H1 & H2 & H3 & H4).
      destruct (select_tool_at_selection d (position index) st)
        as ((H5 & H6 & H7 & H8) & _).
      unfold same_selection. repeat split; congruence.
    + apply stroke_selection.
Qed.

(** Outside the painter branch the dispatch leaves pen, canvas and brush
    alone. *)
Lemma dispatch_painter (d : driver) (env : environment) (f : frame)
    (t i m r p : Z) (st st' : state) (acts : list action) :
  selecting_mode st = true ∨ current_mode st ≠ painter ∨
  (length (lmList f) ≤ 8)%nat →
  dispatch d env f [t; i; m; r; p] st = Some (st', acts) →
  same_painter st st'.
Proof.
  intros Hcase Hd.
  apply dispatch_inv in Hd
    as [(Hsel' & _ & [(_ & ->) | (index & _ & Hhover)])
       | [(_ & _ & [(_ & -> & _) | (index & move & _ & -> & _)])
         | [(_ & _ & -> & _)
           | [(Hsel' & Hmode' & _ & [(_ & ->) | (index & Hindex & ->)])
             | (_ & _ & -> & _)]]]];
    try done.
  - by eapply check_hover_painter.
  - apply click_gestures_selection.
  - apply lookup_lt_Some in Hindex.
    destruct Hcase as [? | [? | ?]]; [congruence | done | lia].
Qed.

(** X14. A frame handled by mode selection with the index tip present
    does one of four things: over no icon it clears the tracked icon;
    over another icon than the tracked one it tracks that icon from now;
    over the tracked icon it changes nothing until the dwell exceeds
    [HOVER_HOLD], a dwell of exactly [HOVER_HOLD] included; and past
    [HOVER_HOLD] it sets the icon's mode and leaves mode selection.  Only
    the last changes the mode. *)
Theorem hover_frame (d : driver) (env : environment) (st : state)
    (f : frame) (index : landmark) :
  lmList f !! 8%nat = Some index →
  mode_selecting st f = true →
  ∃ st' acts,
    process_frame d env st f = Some (st', acts) ∧
    (icon_at d (position index) = None →
     selecting_mode st' = true ∧ current_mode st' = current_mode st ∧
     hovered_icon st' = -1) ∧
    (∀ k : nat,
       icon_at d (position index) = Some k →
       (hovered_icon st ≠ Z.of_nat k →
        selecting_mode st' = true ∧ current_mode st' = current_mode st ∧
        hovered_icon st' = Z.of_nat k ∧ hover_start st' = hover_time f) ∧
       (hovered_icon st = Z.of_nat k →
        (hover_time f - hover_start st <= HOVER_HOLD)%Q →
        selecting_mode st' = true ∧ current_mode st' = current_mode st ∧
        hovered_icon st' = Z.of_nat k ∧ hover_start st' = hover_start st) ∧
       (hovered_icon st = Z.of_nat k →
        (HOVER_HOLD < hover_time f - hover_start st)%Q →
        selecting_mode st' = false ∧
        mode_names !! k = Some (current_mode st'))).
Proof.
  intros Hindex Hsel.
  assert (lmList f ≠ []) as Hhand by (intros Heq; by rewrite Heq in Hindex).
  destruct (process_frame_inv d env st f Hhand)
    as (t & i & m & r & p & v & w & st3 & acts3 & shots & _ & Hd & -> & _).
  rewrite Hsel in Hd.
  apply dispatch_inv in Hd
    as [(_ & _ & [(Hshort & _) | (index' & Hindex' & Hhover)])
       | [(? & _) | [(? & _) | [(? & _) | (? & _)]]]];
    try done.
  { apply lookup_lt_Some in Hindex. lia. }
  rewrite Hindex in Hindex'. injection Hindex' as <-.
  apply check_hover_inv in Hhover. simpl in Hhover.
  eexists _, _. split; [reflexivity |].
  destruct (icon_at d (position index)) as [k |].
  - split; [done |]. intros k' [= <-].
    destruct Hhover as (_ & m' & Hm' & ->).
    destruct (Z.eqb_spec (hovered_icon st) (Z.of_nat k)) as [Heq | Hne].
    + split; [done |].
      unfold Qlt_bool.
      destruct (Qle_bool (hover_time f - hover_start st) HOVER_HOLD)
        eqn:Hle; simpl.
      * apply Qle_bool_iff in Hle. split.
        -- intros _ _. by destruct d.
        -- intros _ Hlt. by apply Qlt_not_le in Hlt.
      * split.
        -- intros _ Hle'. apply Qle_bool_iff in Hle'. congruence.
        -- intros _ _. by destruct d.
    + split; [| split; intros; done]. intros _. by destruct d.
  - subst st3. split; [| done]. intros _. by destruct d.
Qed.

(** The console driver, the volume icon tracked for a second and a half. *)
Lemma hover_frame_witness :
  ∃ st' acts,
    process_frame Console sample_env hovering_volume
      (shows 200 80 index_only 14)
    = Some (st', acts) ∧
    selecting_mode st' = false ∧
    mode_names !! 1%nat = Some (current_mode st').
Proof.
  destruct (hover_frame Console sample_env hovering_volume
              (shows 200 80 index_only 14) (Landmark 8 200 70))
    as (st' & acts & Hframe & _ & Hicon).
  - reflexivity.
  - reflexivity.
  - exists st', acts. split; [exact Hframe |].
    apply (Hicon 1%nat); reflexivity.
Defined.

(** X15. The mode is changed by mode selection only: a frame without a
    hand and a frame dispatched to a mode's branch leave both the current
    mode and the mode-selection flag as they were. *)
Theorem mode_changes_in_selection_only (d : driver) (env : environment)
    (st : state) (f : frame) :
  lmList f = [] ∨ mode_selecting st f = false →
  ∃ st' acts,
    process_frame d env st f = Some (st', acts) ∧
    current_mode st' = current_mode st ∧
    selecting_mode st' = selecting_mode st.
Proof.
  intros Hcase.
  destruct (decide (lmList f = [])) as [Hnone | Hhand].
  { rewrite (process_frame_no_hand _ _ _ _ Hnone). eexists _, _.
    split; [reflexivity |].
    by destruct (end_of_frame_frame d st) as (_ & _ & -> & -> & _). }
  destruct Hcase as [? | Hsel]; [done |].
  assert (selecting_mode st = false) as Hsel0.
  { destruct (selecting_mode st) eqn:Hs; [| done].
    by rewrite (mode_selecting_stays st f Hs) in Hsel. }
  destruct (process_frame_inv d env st f Hhand)
    as (t & i & m & r & p & v & w & st3 & acts3 & shots & _ & Hd & -> & _).
  rewrite Hsel in Hd.
  apply dispatch_selection in Hd as (H1 & H2 & _); [| done].
  eexists _, _. split; [reflexivity |].
  destruct (end_of_frame_frame d st3) as (_ & _ & -> & -> & _).
  simpl in H1, H2. by rewrite H1, H2, Hsel0.
Qed.

(** Scroll mode survives a frame without a hand. *)
Lemma mode_changes_in_selection_only_witness :
  ∃ st' acts,
    process_frame Gui sample_env (set_current_mode scroll initial_state)
      (no_hand 3)
    = Some (st', acts) ∧
    current_mode st' = current_mode (set_current_mode scroll initial_state) ∧
    selecting_mode st'
    = selecting_mode (set_current_mode scroll initial_state).
Proof.
  apply mode_changes_in_selection_only. by left.
Defined.

(** X16. Entering mode selection with the open hand, no icon being
    tracked: the first open-hand frame starts the timer; a later one
    enters mode selection when more than [MODE_SELECT_HOLD] has passed
    since, and not yet at exactly [MODE_SELECT_HOLD], where the fist
    timer of the same length already fires. *)
Theorem open_hand_enters_selection (d : driver) (env : environment)
    (st : state) (f : frame) :
  lmList f ≠ [] →
  fingers_of (lmList f) = Some [1; 1; 1; 1; 1] →
  selecting_mode st = false →
  hovered_icon st = -1 →
  ∃ st' acts,
    process_frame d env st f = Some (st', acts) ∧
    ((select_mode_start st == 0)%Q →
     selecting_mode st' = false ∧ select_mode_start st' = cTime f) ∧
    (¬ (select_mode_start st == 0)%Q →
     (cTime f - select_mode_start st <= MODE_SELECT_HOLD)%Q →
     selecting_mode st' = false ∧
     select_mode_start st' = select_mode_start st) ∧
    (¬ (select_mode_start st == 0)%Q →
     (MODE_SELECT_HOLD < cTime f - select_mode_start st)%Q →
     selecting_mode st' = true).
Proof.
  intros Hhand Hf Hsel Hhov.
  destruct (process_frame_timers d env st f _ Hhand Hf)
    as (st' & acts & Hframe & _ & Hstart & _).
  exists st', acts. split; [done |].
  rewrite Hstart. clear Hstart.
  destruct (process_frame_inv d env st f Hhand)
    as (t & i & m & r & p & v & w & st3 & acts3 & shots & _ & Hd & Hframe'
        & _).
  rewrite Hframe in Hframe'. injection Hframe' as -> _.
  destruct (end_of_frame_frame d st3) as (_ & _ & _ & -> & _).
  pose proof (mode_selecting_hand st f _ Hhand Hf) as Hms.
  assert (mode_selecting st f = false → selecting_mode st3 = false) as Hoff.
  { intros Hoff. rewrite Hoff in Hd.
    by apply dispatch_selection in Hd as (-> & _). }
  assert (mode_selecting st f = true → selecting_mode st3 = true) as Hon.
  { intros Hon. rewrite Hon in Hd.
    apply dispatch_inv in Hd
      as [(_ & _ & [(_ & ->) | (index & _ & Hhover)])
         | [(? & _) | [(? & _) | [(? & _) | (? & _)]]]];
      try done.
    apply check_hover_inv in Hhover. simpl in Hhover.
    destruct (icon_at d (position index)) as [k |]; [| by subst].
    destruct Hhover as (_ & m' & _ & ->).
    rewrite Hhov.
    by destruct (Z.eqb_spec (-1) (Z.of_nat k)) as [? | _]; [lia |]. }
  unfold mode_select_entry, Qlt_bool in *. simpl in Hms |- *.
  destruct (Qeq_bool (select_mode_start st) 0) eqn:Heq.
  - apply Qeq_bool_iff in Heq. simpl in Hms. rewrite Hsel in Hms.
    split; [by intros _; split; [apply Hoff |] |]. by split.
  - apply Qeq_bool_neq in Heq.
    destruct (Qle_bool (cTime f - select_mode_start st) MODE_SELECT_HOLD)
      eqn:Hle; simpl in Hms |- *; rewrite ?Hsel in Hms.
    + apply Qle_bool_iff in Hle. split; [done |]. split.
      * intros _ _. split; [by apply Hoff | done].
      * intros _ Hlt. by apply Qlt_not_le in Hlt.
    + split; [done |]. split.
      * intros _ Hle'. apply Qle_bool_iff in Hle'. congruence.
      * intros _ _. by apply Hon.
Qed.

(** The open hand held for exactly two seconds: not yet. *)
Lemma open_hand_enters_selection_witness :
  ∃ st' acts,
    process_frame Console sample_env (set_select_mode_start 10 initial_state)
      (shows 300 300 five 12)
    = Some (st', acts) ∧
    selecting_mode st' = false ∧
    select_mode_start st'
    = select_mode_start (set_select_mode_start 10 initial_state).
Proof.
  destruct (open_hand_enters_selection Console sample_env
              (set_select_mode_start 10 initial_state)
              (shows 300 300 five 12))
    as (st' & acts & Hframe & _ & Hwait & _).
  - done.
  - reflexivity.
  - reflexivity.
  - reflexivity.
  - exists st', acts. split; [exact Hframe |].
    apply Hwait; intros Hc; discriminate Hc.
Defined.

(** ** Invariants of the loop *)

Lemma dispatch_hover_ok (d : driver) (env : environment) (f : frame)
    (t i m r p : Z) (st st' : state) (acts : list action) :
  dispatch d env f [t; i; m; r; p] st = Some (st', acts) →
  hover_ok st → hover_ok st'.
Proof.
  intros Hd Hok. unfold hover_ok in *.
  destruct (selecting_mode st) eqn:Hsel.
  - apply dispatch_inv in Hd
      as [(_ & _ & [(_ & ->) | (index & _ & Hhover)])
         | [(? & _) | [(? & _) | [(? & _) | (? & _)]]]];
      try done; try congruence.
    apply check_hover_inv in Hhover.
    destruct (icon_at d (position index)) as [k |]; [| by subst].
    destruct Hhover as (Hk & m' & _ & ->).
    repeat match goal with
           | |- context [if ?c then _ else _] => destruct c
           end; destruct d; simpl; lia.
  - by apply dispatch_selection in Hd as (_ & _ & -> & _).
Qed.

Lemma process_frame_hover (d : driver) (env : environment) (st st' : state)
    (f : frame) (acts : list action) :
  process_frame d env st f = Some (st', acts) →
  hover_ok st →
  hover_ok st' ∧ (d = Gui → no_stale_hover st').
Proof.
  intros Hframe Hok.
  assert (∀ st3, hover_ok st3 →
            hover_ok (end_of_frame d st3) ∧
            (d = Gui → no_stale_hover (end_of_frame d st3))) as Hend.
  { intros st3 Hok3. unfold hover_ok, no_stale_hover in *.
    destruct d; simpl; [done |].
    destruct (selecting_mode st3) eqn:Hsel; simpl; [| done].
    split; [done |]. intros _. by rewrite Hsel. }
  destruct (decide (lmList f = [])) as [Hnone | Hhand].
  { rewrite (process_frame_no_hand _ _ _ _ Hnone) in Hframe.
    injection Hframe as <- _. by apply Hend. }
  destruct (process_frame_inv d env st f Hhand)
    as (t & i & m & r & p & v & w & st3 & acts3 & shots & _ & Hd & Hframe'
        & _).
  rewrite Hframe in Hframe'. injection Hframe' as -> _.
  apply Hend. by eapply dispatch_hover_ok.
Qed.

(** X17. The tracked icon stays in range: from a state whose
    [hovered_icon] is -1 or an icon number 0 to 3, every run of the frame
    loop ends in such a state, in either driver. *)
Theorem hovered_icon_in_range (d : driver) (env : environment) (st : state)
    (frames : list frame) :
  hover_ok st →
  ∃ st' acts, run d env st frames = Some (st', acts) ∧ hover_ok st'.
Proof.
  revert st. induction frames as [| f frames IH]; intros st Hok.
  - by eexists _, _.
  - destruct (process_frame_total d env st f) as [[st1 acts1] Hframe].
    destruct (process_frame_hover d env st st1 f acts1 Hframe Hok)
      as [Hok1 _].
    destruct (IH st1 Hok1) as (st' & acts & Hrun & Hok').
    exists st', (acts1 :: acts). simpl. rewrite Hframe. simpl.
    by rewrite Hrun.
Qed.

(** The selection of the volume icon, from start-up. *)
Lemma hovered_icon_in_range_witness :
  ∃ st' acts,
    run Console sample_env initial_state
      [shows 200 80 five 10; shows 200 80 five (25 / 2);
       shows 200 80 index_only 14]
    = Some (st', acts) ∧
    hover_ok st'.
Proof.
  apply hovered_icon_in_range. unfold hover_ok. simpl. lia.
Defined.

Lemma gui_handle_hover (env : environment) (st st' : state) (ev : gui_event)
    (acts : list action) :
  gui_handle env st ev = Some (st', acts) →
  hover_ok st → no_stale_hover st →
  hover_ok st' ∧ no_stale_hover st'.
Proof.
  destruct ev as [f | m | key | ]; simpl.
  - intros Hframe Hok _.
    destruct (process_frame_hover Gui env st st' f acts Hframe Hok)
      as [Hok' Hstale].
    split; [done | by apply Hstale].
  - by intros [= <- _].
  - intros [= <- _]. by destruct key.
  - by intros [= <- _].
Qed.

(** X18. The GUI keeps no stale hover tracking: from a state without it,
    whatever frames arrive and whatever buttons are pressed, outside mode
    selection no icon is tracked.  (The console driver does not keep this
    invariant.) *)
Theorem gui_never_tracks_outside_selection (env : environment) (st : state)
    (events : list gui_event) :
  hover_ok st → no_stale_hover st →
  ∃ st' acts,
    gui_run env st events = Some (st', acts) ∧
    hover_ok st' ∧ no_stale_hover st'.
Proof.
  revert st. induction events as [| ev events IH]; intros st Hok Hstale.
  - by eexists _, _.
  - assert (is_Some (gui_handle env st ev)) as [[st1 acts1] Hev].
    { destruct ev; simpl; [apply process_frame_total | by eexists ..]. }
    destruct (gui_handle_hover env st st1 ev acts1 Hev Hok Hstale)
      as [Hok1 Hstale1].
    destruct (IH st1 Hok1 Hstale1) as (st' & acts & Hrun & Hinv).
    exists st', (acts1 :: acts). simpl gui_run. rewrite Hev. simpl.
    by rewrite Hrun.
Qed.

(** The selection of the volume icon, then the mouse button. *)
Lemma gui_never_tracks_outside_selection_witness :
  ∃ st' acts,
    gui_run sample_env initial_state
      [timer_fired (shows 200 80 five 10);
       timer_fired (shows 200 80 five (25 / 2));
       timer_fired (shows 200 80 index_only 14); mode_button mouse]
    = Some (st', acts) ∧
    hover_ok st' ∧ no_stale_hover st'.
Proof.
  apply gui_never_tracks_outside_selection.
  - unfold hover_ok. simpl. lia.
  - intros _. reflexivity.
Defined.

Lemma fist_is_not_open (lm : list landmark) (fingers : list Z) :
  fingers_of lm = Some fingers →
  ints_eqb fingers [0; 0; 0; 0; 0] = true → sum fingers ≠ 5.
Proof.
  intros Hf.
  destruct (fingers_of_total lm)
    as (t & i & m & r & p & Hf' & Ht & Hi & Hm & Hr & Hp).
  rewrite Hf in Hf'. injection Hf' as ->.
  destruct (flags_sum t i m r p Ht Hi Hm Hr Hp) as (_ & _ & Hfist).
  intros Hzero%Hfist. injection Hzero as -> -> -> -> ->. done.
Qed.

Lemma process_frame_exclusive (d : driver) (env : environment)
    (st st' : state) (f : frame) (acts : list action) :
  process_frame d env st f = Some (st', acts) →
  timers_exclusive st → timers_exclusive st'.
Proof.
  intros Hframe Hex. unfold timers_exclusive in *.
  destruct (decide (lmList f = [])) as [Hnone | Hhand].
  { rewrite (process_frame_no_hand _ _ _ _ Hnone) in Hframe.
    injection Hframe as <- _.
    by destruct (end_of_frame_frame d st) as ([-> ->] & _). }
  destruct (fingers_of_total (lmList f)) as (t & i & m & r & p & Hf & _).
  destruct (process_frame_timers d env st f _ Hhand Hf)
    as (st'' & acts'' & Hframe' & Hshot & Hselect & _).
  rewrite Hframe in Hframe'. injection Hframe' as <- <-.
  rewrite Hshot, Hselect.
  unfold screenshot_trigger, mode_select_entry.
  destruct (ints_eqb [t; i; m; r; p] [0; 0; 0; 0; 0]) eqn:Hfist;
    [| by left].
  right. apply (fist_is_not_open _ _ Hf) in Hfist.
  by destruct (Z.eqb_spec (sum [t; i; m; r; p]) 5).
Qed.

(** X19. The fist timer and the open-hand timer never run together: from
    a state where at least one of them is unset, as at start-up, every
    run of the frame loop ends with at least one of them unset. *)
Theorem hold_timers_exclude_each_other (d : driver) (env : environment)
    (st : state) (frames : list frame) :
  timers_exclusive st →
  ∃ st' acts, run d env st frames = Some (st', acts) ∧ timers_exclusive st'.
Proof.
  revert st. induction frames as [| f frames IH]; intros st Hex.
  - by eexists _, _.
  - destruct (process_frame_total d env st f) as [[st1 acts1] Hframe].
    pose proof (process_frame_exclusive d env st st1 f acts1 Hframe Hex)
      as Hex1.
    destruct (IH st1 Hex1) as (st' & acts & Hrun & Hex').
    exists st', (acts1 :: acts). simpl. rewrite Hframe. simpl.
    by rewrite Hrun.
Qed.

(** A fist, the hand lost, then the open hand. *)
Lemma hold_timers_exclude_each_other_witness :
  ∃ st' acts,
    run Gui sample_env initial_state
      [shows 300 300 fist 1; no_hand 2; shows 300 300 five 3]
    = Some (st', acts) ∧
    timers_exclusive st'.
Proof.
  apply hold_timers_exclude_each_other. by left.
Defined.

(** ** The painter's state *)

Ltac solve_elem := first [done | by repeat constructor | by constructor].

Lemma select_tool_brush_ok (name : painter_option) (st : state) :
  brush_ok st → brush_ok (select_tool name st).
Proof.
  unfold brush_ok, palette, white. intros (Hb & Hl & Hc).
  destruct name; simpl; repeat split; solve_elem.
Qed.

Lemma select_tool_at_brush_ok (d : driver) (c : Z * Z) (st : state) :
  brush_ok st → brush_ok (select_tool_at d c st).
Proof.
  unfold select_tool_at. generalize (painter_options d).
  intros options. revert st.
  induction options as [| [name [x y]] options IH]; intros st Hok; [done |].
  simpl.
  destruct (between x c.1 (ICON_SIZE d) && between y c.2 (ICON_SIZE d));
    [| by apply IH].
  by apply IH, select_tool_brush_ok.
Qed.

Lemma on_painter_option_brush_ok (key : painter_option) (st : state) :
  brush_ok st → brush_ok (on_painter_option key st).
Proof.
  unfold brush_ok, palette, white. intros (Hb & Hl & Hc).
  destruct key; simpl; repeat split; solve_elem.
Qed.

(** A stroke draws at most one line, with the brush as it is. *)
Lemma stroke_canvas (f1 f2 : Z) (c : Z * Z) (st : state) :
  (img_canvas (stroke f1 f2 c st) = img_canvas st ∧
   truthy f1 && truthy f2 = false ∨
   ∃ l,
     img_canvas (stroke f1 f2 c st) = l :: img_canvas st ∧
     truthy f1 && truthy f2 = true ∧
     pt2 l = c ∧ line_color l = draw_color st ∧
     line_thickness l = brush_thickness st) ∧
  brush_thickness (stroke f1 f2 c st) = brush_thickness st ∧
  draw_color (stroke f1 f2 c st) = draw_color st ∧
  last_color (stroke f1 f2 c st) = last_color st.
Proof.
  unfold stroke. destruct (truthy f1 && truthy f2).
  - destruct ((xp st =? 0) && (yp st =? 0));
      (split; [| done]); right; by eexists.
  - split; [| done]. by left.
Qed.

(** What a frame does to the canvas and the brush. *)
Lemma process_frame_canvas (d : driver) (env : environment) (st st' : state)
    (f : frame) (acts : list action) :
  process_frame d env st f = Some (st', acts) →
  brush_ok st →
  brush_ok st' ∧
  (img_canvas st' = img_canvas st ∨
   ∃ l, img_canvas st' = l :: img_canvas st ∧ line_ok l).
Proof.
  intros Hframe Hok.
  assert (∀ st3, brush_ok (end_of_frame d st3) = brush_ok st3 ∧
                 img_canvas (end_of_frame d st3) = img_canvas st3) as Hend.
  { intros st3. destruct d; [done |]. simpl.
    by destruct (selecting_mode st3). }
  destruct (decide (lmList f = [])) as [Hnone | Hhand].
  { rewrite (process_frame_no_hand _ _ _ _ Hnone) in Hframe.
    injection Hframe as <- _. destruct (Hend st) as [-> ->]. eauto. }
  destruct (process_frame_inv d env st f Hhand)
    as (t & i & m & r & p & v & w & st3 & acts3 & shots & _ & Hd & Hframe'
        & _).
  rewrite Hframe in Hframe'. injection Hframe' as -> _.
  destruct (Hend st3) as [-> ->]. clear Hend Hframe.
  assert (selecting_mode
            (set_selecting_mode (mode_selecting st f)
               (set_select_mode_start v (set_screenshot_start w st))) = true ∨
          current_mode
            (set_selecting_mode (mode_selecting st f)
               (set_select_mode_start v (set_screenshot_start w st)))
          ≠ painter ∨
          (length (lmList f) ≤ 8)%nat →
          brush_ok st3 ∧
          (img_canvas st3 = img_canvas st ∨
           ∃ l, img_canvas st3 = l :: img_canvas st ∧ line_ok l)) as Hout.
  { intros Hcase.
    eapply dispatch_painter in Hcase as (_ & Hcv & Hb & Hc & _ & Hl);
      [| exact Hd].
    simpl in Hcv, Hb, Hc, Hl.
    split; [| by left]. unfold brush_ok in *. by rewrite Hb, Hc, Hl. }
  pose proof Hd as Hd'.
  apply dispatch_inv in Hd'
    as [(Hsel & _)
       | [(_ & Hmode & _)
         | [(_ & Hmode & _)
           | [(_ & _ & _ & [(Hshort & _) | (index & Hindex & Heq)])
             | (_ & Hmode & _)]]]];
    try (apply Hout; by left);
    try (apply Hout; right; left; congruence);
    try (apply Hout; right; by right).
  clear Hout Hd. subst st3. simpl.
  match goal with
  | |- context [stroke i m ?c ?st1] =>
      destruct (stroke_canvas i m c st1)
        as (Hcanvas & Hb & Hc & Hl);
      assert (brush_ok st1 ∧ img_canvas st1 = img_canvas st ∧
              (truthy i && truthy m = true →
               draw_color st1 = draw_color st ∧
               brush_thickness st1 = brush_thickness st))
        as (Hok1 & Hcanvas1 & Hsame)
  end.
  { match goal with
    | |- context [if ?c then _ else _] => destruct c eqn:Hcond
    end; [| done].
    split; [by apply select_tool_at_brush_ok |].
    split; [| intros Hdraw; by destruct (truthy i), (truthy m)].
    match goal with
    | |- context [select_tool_at d ?c ?st2] =>
        by destruct (select_tool_at_selection d c st2) as (_ & _ & ->)
    end. }
  split.
  - unfold brush_ok in *. by rewrite Hb, Hc, Hl.
  - destruct Hcanvas as [[-> _] | (l & -> & Hdraw & _ & Hlc & Hlt)];
      [by left |].
    right. exists l. rewrite Hcanvas1. split; [done |].
    destruct (Hsame Hdraw) as [Hc' Hb'].
    unfold line_ok. rewrite Hlc, Hlt.
    destruct Hok1 as (? & _ & ?). done.
Qed.

(** X20. The frame loop only adds to the canvas: a run of frames leaves
    every earlier line in place and draws at most one line per frame, and
    from a brush of thickness 5, 10 or 20 in a palette colour or white it
    draws only such lines and ends with such a brush. *)
Theorem canvas_only_grows (d : driver) (env : environment) (st : state)
    (frames : list frame) :
  brush_ok st →
  ∃ st' acts new,
    run d env st frames = Some (st', acts) ∧
    img_canvas st' = new ++ img_canvas st ∧
    (length new ≤ length frames)%nat ∧
    Forall line_ok new ∧ brush_ok st'.
Proof.
  revert st. induction frames as [| f frames IH]; intros st Hok.
  - by exists st, [], [].
  - destruct (process_frame_total d env st f) as [[st1 acts1] Hframe].
    destruct (process_frame_canvas d env st st1 f acts1 Hframe Hok)
      as [Hok1 Hcanvas].
    destruct (IH st1 Hok1) as (st' & acts & new & Hrun & Hnew & Hlen & Hlines
                               & Hok').
    simpl. rewrite Hframe. simpl. rewrite Hrun. simpl.
    destruct Hcanvas as [Heq | (l & Heq & Hl)]; rewrite Heq in Hnew.
    + exists st', (acts1 :: acts), new.
      do 2 (split; [done |]). split; [simpl; lia | done].
    + exists st', (acts1 :: acts), (new ++ [l]).
      rewrite <- app_assoc. do 2 (split; [done |]).
      split; [rewrite length_app; simpl; lia |].
      split; [| done]. apply Forall_app. split; [done |]. by constructor.
Qed.

(** Two drawing frames in painter mode: a dot and a segment. *)
Lemma canvas_only_grows_witness :
  ∃ st' acts new,
    run Console sample_env painter_lifted
      [shows 100 110 index_middle 5; shows 110 115 index_middle 6]
    = Some (st', acts) ∧
    img_canvas st' = new ++ img_canvas painter_lifted ∧
    (length new ≤ 2)%nat ∧
    Forall line_ok new ∧ brush_ok st'.
Proof.
  apply (canvas_only_grows Console sample_env painter_lifted
           [shows 100 110 index_middle 5; shows 110 115 index_middle 6]).
  unfold brush_ok, palette, white. simpl. repeat split; solve_elem.
Defined.

Lemma gui_handle_brush (env : environment) (st st' : state) (ev : gui_event)
    (acts : list action) :
  gui_handle env st ev = Some (st', acts) →
  brush_ok st → Forall line_ok (img_canvas st) →
  brush_ok st' ∧ Forall line_ok (img_canvas st').
Proof.
  destruct ev as [f | m | key | ]; simpl.
  - intros Hframe Hok Hlines.
    destruct (process_frame_canvas Gui env st st' f acts Hframe Hok)
      as [Hok' [-> | (l & -> & Hl)]]; [done |].
    split; [done | by constructor].
  - by intros [= <- _].
  - intros [= <- _] Hok Hlines.
    split; [by apply on_painter_option_brush_ok | by destruct key].
  - intros [= <- _] Hok _. split; [done | constructor].
Qed.

(** X21. In the GUI, under any interleaving of frames, mode buttons,
    painter buttons and canvas clearing, the brush is 5, 10 or 20 pixels
    thick, the stroke colour is red, green, blue or the eraser's white,
    the remembered colour is never white, and every line on the canvas
    was drawn with such a brush. *)
Theorem gui_brush_invariant (env : environment) (st : state)
    (events : list gui_event) :
  brush_ok st → Forall line_ok (img_canvas st) →
  ∃ st' acts,
    gui_run env st events = Some (st', acts) ∧
    brush_ok st' ∧ Forall line_ok (img_canvas st').
Proof.
  revert st. induction events as [| ev events IH]; intros st Hok Hlines.
  - by eexists _, _.
  - assert (is_Some (gui_handle env st ev)) as [[st1 acts1] Hev].
    { destruct ev; simpl; [apply process_frame_total | by eexists ..]. }
    destruct (gui_handle_brush env st st1 ev acts1 Hev Hok Hlines)
      as [Hok1 Hlines1].
    destruct (IH st1 Hok1 Hlines1) as (st' & acts & Hrun & Hinv).
    exists st', (acts1 :: acts). simpl gui_run. rewrite Hev. simpl.
    by rewrite Hrun.
Qed.

(** Eraser and thick brush by button, a stroke, the canvas cleared. *)
Lemma gui_brush_invariant_witness :
  ∃ st' acts,
    gui_run sample_env painter_lifted
      [painter_button eraser; painter_button thick;
       timer_fired (shows 100 110 index_middle 5); clear_canvas_button]
    = Some (st', acts) ∧
    brush_ok st' ∧ Forall line_ok (img_canvas st').
Proof.
  apply gui_brush_invariant.
  - unfold brush_ok, palette, white. simpl. repeat split; solve_elem.
  - constructor.
Defined.

(** X22. Pen, canvas and brush are written by the painter branch only: a
    frame without a hand, a frame handled by mode selection, a frame in
    another mode and a painter frame without the index tip leave the pen
    position, the canvas, the thickness and the colours as they were; in
    particular they do not lift the pen. *)
Theorem painter_state_changes_in_painter_only (d : driver)
    (env : environment) (st : state) (f : frame) :
  lmList f = [] ∨ mode_selecting st f = true ∨ current_mode st ≠ painter ∨
  (length (lmList f) ≤ 8)%nat →
  ∃ st' acts,
    process_frame d env st f = Some (st', acts) ∧ same_painter st st'.
Proof.
  intros Hcase.
  assert (∀ st3, same_painter st st3 → same_painter st (end_of_frame d st3))
    as Hend.
  { intros st3 Hsame. destruct d; [done |]. simpl.
    by destruct (selecting_mode st3). }
  destruct (decide (lmList f = [])) as [Hnone | Hhand].
  { rewrite (process_frame_no_hand _ _ _ _ Hnone). eexists _, _.
    split; [reflexivity |]. by apply Hend. }
  destruct (process_frame_inv d env st f Hhand)
    as (t & i & m & r & p & v & w & st3 & acts3 & shots & _ & Hd & -> & _).
  eexists _, _. split; [reflexivity |]. apply Hend.
  eapply dispatch_painter in Hd; [exact Hd |].
  simpl. destruct Hcase as [? | [? | [? | ?]]]; [done | tauto ..].
Qed.

(** The pen, down at (100, 100), stays there while the hand is lost. *)
Lemma painter_state_changes_in_painter_only_witness :
  ∃ st' acts,
    process_frame Console sample_env (set_pen (100, 100) painter_lifted)
      (no_hand 7)
    = Some (st', acts) ∧
    same_painter (set_pen (100, 100) painter_lifted) st'.
Proof.
  apply painter_state_changes_in_painter_only. by left.
Defined.

(** X23. The painter buttons of the GUI and the icon gesture set the same
    tool, except for the thickness tools after the eraser: the gesture
    then restores the remembered colour, the button keeps the stroke
    colour as it is, so that the GUI goes on erasing with the new
    thickness.  The two agree exactly when the key is a colour or the
    eraser, or the stroke colour is the remembered colour already. *)
Theorem painter_button_and_gesture (key : painter_option) (st : state) :
  on_painter_option key st = select_tool key st ↔
  (key = thick ∨ key = thin → draw_color st = last_color st).
Proof.
  split.
  - intros Heq [-> | ->]; apply (f_equal draw_color) in Heq; exact Heq.
  - intros Hsame. destruct st.
    destruct key; simpl in *; try done;
      rewrite Hsame by (first [by left | by right]); done.
Qed.

(** X24. The icon gesture picks the tool under the fingertip: inside the
    square of one painter icon, [select_tool_at] sets that icon's tool
    (the squares of either driver being disjoint); outside all of them it
    changes nothing. *)
Theorem select_tool_at_icon (d : driver) (c : Z * Z) (st : state) :
  (∀ (k : nat) (name : painter_option) (x y : Z),
      painter_options d !! k = Some (name, (x, y)) →
      x < c.1 < x + ICON_SIZE d → y < c.2 < y + ICON_SIZE d →
      select_tool_at d c st = select_tool name st) ∧
  ((∀ (k : nat) (name : painter_option) (x y : Z),
       painter_options d !! k = Some (name, (x, y)) →
       ¬ (x < c.1 < x + ICON_SIZE d ∧ y < c.2 < y + ICON_SIZE d)) →
   select_tool_at d c st = st).
Proof.
  destruct c as [cx cy]. split.
  - intros k name x y Hk Hx Hy. simpl in Hx, Hy.
    unfold select_tool_at.
    destruct d;
      do 6 (destruct k as [| k];
            [injection Hk as <- <- <-; simpl in *; unfold between;
             repeat match goal with
                    | |- context [?a <? ?b] =>
                        destruct (Z.ltb_spec a b); try lia; simpl
                    end; done |]);
      done.
  - intros Hout. unfold select_tool_at. simpl in Hout.
    generalize dependent (painter_options d). intros l.
    induction l as [| [name [x y]] l IH]; intros Hout; [done |].
    assert (between x cx (ICON_SIZE d) && between y cy (ICON_SIZE d)
            = false) as Hmiss.
    { unfold between.
      destruct (Z.ltb_spec x cx), (Z.ltb_spec cx (x + ICON_SIZE d)),
        (Z.ltb_spec y cy), (Z.ltb_spec cy (y + ICON_SIZE d)); simpl;
        try done.
      destruct (Hout 0%nat name x y eq_refl). lia. }
    simpl. rewrite Hmiss. apply IH. intros k. apply (Hout (S k)).
Qed.

(** The fingertip at (350, 60) of the console frame is on the thick icon
    only. *)
Lemma select_tool_at_icon_witness :
  select_tool_at Console (350, 60) painter_lifted
  = select_tool thick painter_lifted.
Proof.
  apply (proj1 (select_tool_at_icon Console (350, 60) painter_lifted)
           3%nat thick 325 20); [reflexivity | simpl; lia | simpl; lia].
Defined.
